(** * Address book of the assistant bot (module_2.1.py)

    A shallow embedding of the field validators, [Record] and [AddressBook]
    of [module_2.1.py], and the properties of the specification that concern
    them.

    Modelling conventions.
    - A Python [str] is a [string]; each character stands for the code point
      of the same number, so the strings of the model are the Python strings
      over U+0000..U+00FF.  [str.isdigit], [\d] and [int] are given on that
      range as CPython defines them.
    - Integers are [Z].
    - An exception is a value of [exn]; a constructor call, which builds a
      fresh object, is an [outcome]; a method, which mutates [self], is a
      state transformer [M S A] whose state survives a raised exception, as
      the attributes of a Python object do.
    - A [dict] is an association list in insertion order.
    - [datetime.today()] reads the clock: it is the parameter [today].
    - The assistant acts on its surroundings through the view and
      [pickle.dump]: these calls are the events of a trace; the lines the
      user enters are a list, and the clock is a function of the number of
      times it has been read. *)

From Stdlib Require Import String Ascii List ZArith NArith Bool Lia DecimalString.
Import ListNotations.
Open Scope string_scope.
Open Scope Z_scope.

(** ** Characters and strings *)

Definition ord (c : ascii) : Z := Z.of_N (N_of_ascii c).

(** A character class [[lo-hi]] of a regular expression. *)
Definition in_range (lo hi : ascii) (c : ascii) : bool :=
  (ord lo <=? ord c) && (ord c <=? ord hi).

(** [\d]: the characters of category Nd; below U+0100 these are 0..9. *)
Definition is_decimal (c : ascii) : bool := in_range "0" "9" c.

(** The characters [c] with [c.isdigit()]: Numeric_Type Decimal or Digit.
    Below U+0100 these are 0..9 and the superscripts U+00B2, U+00B3 and
    U+00B9. *)
Definition char_isdigit (c : ascii) : bool :=
  is_decimal c || (ord c =? 178) || (ord c =? 179) || (ord c =? 185).

(** The characters [c] with [c.isspace()], below U+0100. *)
Definition char_isspace (c : ascii) : bool :=
  ((9 <=? ord c) && (ord c <=? 13)) || ((28 <=? ord c) && (ord c <=? 32))
  || (ord c =? 133) || (ord c =? 160).

Fixpoint str_all (p : ascii -> bool) (s : string) : bool :=
  match s with
  | EmptyString => true
  | String c r => p c && str_all p r
  end.

(** [s.isdigit()]: every character is a digit and there is at least one. *)
Definition isdigit (s : string) : bool :=
  match s with
  | EmptyString => false
  | String _ _ => str_all char_isdigit s
  end.

Definition len (s : string) : Z := Z.of_nat (String.length s).

(** ** Exceptions and effects *)

(** The arguments of the exceptions: the messages of [module_2.1.py] as they
    are written there, those of the library by what they report. *)
Inductive message : Type :=
| Text (s : string)
| TimeDataDoesNotMatch (data fmt : string)
| UnconvertedDataRemains (rest : string)
| YearOutOfRange (year : Z)
| MonthOutOfRange
| DayOutOfRange
| DateValueOutOfRange
| NotInList.

Inductive exn : Type :=
| ValueError (m : message)
| KeyError (m : message)
| OverflowError (m : message).

Inductive outcome (A : Type) : Type :=
| Return (a : A)
| Raise (e : exn).
Arguments Return {A} a.
Arguments Raise {A} e.

Definition obind {A B : Type} (o : outcome A) (k : A -> outcome B) : outcome B :=
  match o with
  | Return a => k a
  | Raise e => Raise e
  end.

(** [try: body except ValueError: handler]. *)
Definition except_ValueError {A : Type} (body : outcome A) (handler : outcome A)
  : outcome A :=
  match body with
  | Raise (ValueError _) => handler
  | _ => body
  end.

(** A method of an object of state [S]. *)
Definition M (S A : Type) : Type := S -> outcome A * S.

Definition ret {S A : Type} (a : A) : M S A := fun s => (Return a, s).
Definition raise {S A : Type} (e : exn) : M S A := fun s => (Raise e, s).
Definition bind {S A B : Type} (m : M S A) (k : A -> M S B) : M S B :=
  fun s =>
    match m s with
    | (Return a, s') => k a s'
    | (Raise e, s') => (Raise e, s')
    end.
Definition get {S : Type} : M S S := fun s => (Return s, s).
Definition put {S : Type} (s : S) : M S unit := fun _ => (Return tt, s).
Definition lift {S A : Type} (o : outcome A) : M S A := fun s => (o, s).

Declare Scope py_scope.
Delimit Scope py_scope with py.
Notation "x <- m ;; k" := (bind m (fun x => k))
  (at level 61, m at next level, right associativity) : py_scope.
Notation "m ;; k" := (bind m (fun _ => k))
  (at level 61, right associativity) : py_scope.
Notation "x <-- o ;; k" := (obind o (fun x => k))
  (at level 61, o at next level, right associativity) : py_scope.
Open Scope py_scope.

(** The error kinds of the specification, as the program raises them. *)
Inductive ErrorKind : Type := ValidationError | NotFoundError.

Definition msg_phone_digits : message := Text "Phone number must be 10 digits.".
Definition msg_date_format : message := Text "Invalid date format. Use DD.MM.YYYY".
Definition msg_phone_not_found : message := Text "Phone not found.".
Definition msg_contact_not_found : message := Text "Contact not found.".

Definition message_eqb (a b : message) : bool :=
  match a, b with
  | Text x, Text y => String.eqb x y
  | _, _ => false
  end.

Definition kind_of (e : exn) : option ErrorKind :=
  match e with
  | ValueError m =>
      if message_eqb m msg_phone_digits || message_eqb m msg_date_format
      then Some ValidationError
      else if message_eqb m msg_phone_not_found then Some NotFoundError
      else None
  | KeyError m =>
      if message_eqb m msg_contact_not_found then Some NotFoundError else None
  | OverflowError _ => None
  end.

(** ** Fields *)

(** [Field.__init__] stores the value; [Name] inherits it unchanged. *)
Record Name : Type := mkName { name_value : string }.
Record Phone : Type := mkPhone { phone_value : string }.
Record Birthday : Type := mkBirthday { birthday_value : string }.

Definition Name_init (value : string) : outcome Name := Return (mkName value).

Definition Phone_init (value : string) : outcome Phone :=
  if negb (isdigit value) || negb (len value =? 10)
  then Raise (ValueError msg_phone_digits)
  else Return (mkPhone value).

(** ** Record *)

Record Record_ : Type := mkRecord {
  name : Name;
  phones : list Phone;
  birthday : option Birthday
}.

Definition Record_init (name : string) : outcome Record_ :=
  n <-- Name_init name ;;
  Return {| name := n; phones := []; birthday := None |}.

Definition set_phones (self : Record_) (l : list Phone) : Record_ :=
  {| name := name self; phones := l; birthday := birthday self |}.

Definition set_birthday (self : Record_) (b : option Birthday) : Record_ :=
  {| name := name self; phones := phones self; birthday := b |}.

(** [Field] defines no [__eq__], so [==] between two phones is identity.
    The only phone that is ever compared is the one [find_phone] returned,
    which is the first of the list with its value: every phone before it has
    another value, hence is another object, and it is identical to itself.
    Comparing the values therefore finds the same position. *)
Definition Phone_eqb (p q : Phone) : bool :=
  String.eqb (phone_value p) (phone_value q).

(** [list.remove(x)]: deletes the first item equal to [x]. *)
Fixpoint list_remove {A : Type} (eqb : A -> A -> bool) (x : A) (l : list A)
  : outcome (list A) :=
  match l with
  | [] => Raise (ValueError NotInList)
  | v :: rest =>
      if eqb v x then Return rest
      else rest' <-- list_remove eqb x rest ;; Return (v :: rest')
  end.

Fixpoint find_phone_in (phone : string) (l : list Phone) : option Phone :=
  match l with
  | [] => None
  | p :: rest =>
      if String.eqb (phone_value p) phone then Some p
      else find_phone_in phone rest
  end.

Definition find_phone (phone : string) (self : Record_) : option Phone :=
  find_phone_in phone (phones self).

Definition add_phone (phone : string) : M Record_ unit :=
  p <- lift (Phone_init phone) ;;
  self <- get ;;
  put (set_phones self (phones self ++ [p])).

Definition remove_phone (phone : string) : M Record_ unit :=
  self <- get ;;
  match find_phone phone self with
  | Some phone_to_remove =>
      l <- lift (list_remove Phone_eqb phone_to_remove (phones self)) ;;
      self <- get ;;
      put (set_phones self l)
  | None => raise (ValueError msg_phone_not_found)
  end.

Definition edit_phone (old_phone new_phone : string) : M Record_ unit :=
  self <- get ;;
  match find_phone old_phone self with
  | Some _ => add_phone new_phone ;; remove_phone old_phone
  | None => raise (ValueError msg_phone_not_found)
  end.

Definition phone_values (self : Record_) : list string :=
  map phone_value (phones self).

(** The wording of the specification: the list without the first occurrence
    of a value. *)
Fixpoint remove_first (x : string) (l : list string) : list string :=
  match l with
  | [] => []
  | v :: rest => if String.eqb v x then rest else v :: remove_first x rest
  end.

(** ** dict *)

Definition dict (V : Type) : Type := list (string * V).

Fixpoint dict_get {V : Type} (k : string) (d : dict V) : option V :=
  match d with
  | [] => None
  | (k', v) :: rest => if String.eqb k' k then Some v else dict_get k rest
  end.

(** [k in d] *)
Definition dict_contains {V : Type} (k : string) (d : dict V) : bool :=
  match dict_get k d with Some _ => true | None => false end.

(** [d[k] = v]: a key that is present keeps its place. *)
Fixpoint dict_setitem {V : Type} (k : string) (v : V) (d : dict V) : dict V :=
  match d with
  | [] => [(k, v)]
  | (k', v') :: rest =>
      if String.eqb k' k then (k, v) :: rest
      else (k', v') :: dict_setitem k v rest
  end.

(** [del d[k]] for a key that is present. *)
Definition dict_delitem {V : Type} (k : string) (d : dict V) : dict V :=
  filter (fun kv => negb (String.eqb (fst kv) k)) d.

Definition dict_keys {V : Type} (d : dict V) : list string := map fst d.
Definition dict_values {V : Type} (d : dict V) : list V := map snd d.

(** ** Dates *)

Definition MINYEAR : Z := 1.
Definition MAXYEAR : Z := 9999.
Definition _MAXORDINAL : Z := 3652059.

Definition _DAYS_IN_MONTH : list Z :=
  [-1; 31; 28; 31; 30; 31; 30; 31; 31; 30; 31; 30; 31].
Definition _DAYS_BEFORE_MONTH : list Z :=
  [-1; 0; 31; 59; 90; 120; 151; 181; 212; 243; 273; 304; 334].

(** An index into one of the two tables; these are only read at 1..12. *)
Definition table (t : list Z) (i : Z) : Z := nth (Z.to_nat i) t (-1).

Definition _is_leap (year : Z) : bool :=
  (year mod 4 =? 0) && (negb (year mod 100 =? 0) || (year mod 400 =? 0)).

Definition _days_before_year (year : Z) : Z :=
  let y := year - 1 in
  y * 365 + y / 4 - y / 100 + y / 400.

Definition _days_in_month (year month : Z) : Z :=
  if (month =? 2) && _is_leap year then 29 else table _DAYS_IN_MONTH month.

Definition _days_before_month (year month : Z) : Z :=
  table _DAYS_BEFORE_MONTH month
  + (if (2 <? month) && _is_leap year then 1 else 0).

Definition _ymd2ord (year month day : Z) : Z :=
  _days_before_year year + _days_before_month year month + day.

Definition _DI400Y : Z := _days_before_year 401.
Definition _DI100Y : Z := _days_before_year 101.
Definition _DI4Y : Z := _days_before_year 5.

Definition _ord2ymd (n : Z) : Z * Z * Z :=
  let n := n - 1 in
  let n400 := n / _DI400Y in
  let n := n mod _DI400Y in
  let year := n400 * 400 + 1 in
  let n100 := n / _DI100Y in
  let n := n mod _DI100Y in
  let n4 := n / _DI4Y in
  let n := n mod _DI4Y in
  let n1 := n / 365 in
  let n := n mod 365 in
  let year := year + n100 * 100 + n4 * 4 + n1 in
  if (n1 =? 4) || (n100 =? 4) then (year - 1, 12, 31)
  else
    let leapyear := (n1 =? 3) && (negb (n4 =? 24) || (n100 =? 3)) in
    let month := Z.shiftr (n + 50) 5 in
    let preceding :=
      table _DAYS_BEFORE_MONTH month
      + (if (2 <? month) && leapyear then 1 else 0) in
    if n <? preceding then
      let month := month - 1 in
      let preceding :=
        preceding - (table _DAYS_IN_MONTH month
                     + (if (month =? 2) && leapyear then 1 else 0)) in
      (year, month, n - preceding + 1)
    else (year, month, n - preceding + 1).

Record datetime : Type := mkdatetime {
  year : Z; month : Z; day : Z;
  hour : Z; minute : Z; second : Z; microsecond : Z
}.

Definition _check_date_fields (year month day : Z) : outcome unit :=
  if negb ((MINYEAR <=? year) && (year <=? MAXYEAR))
  then Raise (ValueError (YearOutOfRange year))
  else if negb ((1 <=? month) && (month <=? 12))
  then Raise (ValueError MonthOutOfRange)
  else if negb ((1 <=? day) && (day <=? _days_in_month year month))
  then Raise (ValueError DayOutOfRange)
  else Return tt.

Definition _check_time_fields (hour minute second microsecond : Z)
  : outcome unit :=
  if negb ((0 <=? hour) && (hour <=? 23))
  then Raise (ValueError (Text "hour must be in 0..23"))
  else if negb ((0 <=? minute) && (minute <=? 59))
  then Raise (ValueError (Text "minute must be in 0..59"))
  else if negb ((0 <=? second) && (second <=? 59))
  then Raise (ValueError (Text "second must be in 0..59"))
  else if negb ((0 <=? microsecond) && (microsecond <=? 999999))
  then Raise (ValueError (Text "microsecond must be in 0..999999"))
  else Return tt.

(** [datetime(year, month, day, hour, minute, second, microsecond)] *)
Definition datetime_new (year month day hour minute second microsecond : Z)
  : outcome datetime :=
  _ <-- _check_date_fields year month day ;;
  _ <-- _check_time_fields hour minute second microsecond ;;
  Return (mkdatetime year month day hour minute second microsecond).

(** [self.replace(year=y)] *)
Definition replace_year (self : datetime) (y : Z) : outcome datetime :=
  datetime_new y (month self) (day self)
               (hour self) (minute self) (second self) (microsecond self).

Definition toordinal (self : datetime) : Z :=
  _ymd2ord (year self) (month self) (day self).

(** A [timedelta], normalised: [0 <= seconds < 86400] and
    [0 <= microseconds < 1000000]. *)
Record timedelta : Type := mktimedelta {
  days : Z; seconds : Z; microseconds : Z
}.

Definition timedelta_of_microseconds (us : Z) : timedelta :=
  let s := us / 1000000 in
  mktimedelta (s / 86400) (s mod 86400) (us mod 1000000).

Definition timedelta_new (days hours minutes seconds microseconds : Z)
  : timedelta :=
  timedelta_of_microseconds
    ((((days * 24 + hours) * 60 + minutes) * 60 + seconds) * 1000000
     + microseconds).

Definition total_microseconds (t : timedelta) : Z :=
  (days t * 86400 + seconds t) * 1000000 + microseconds t.

Definition timedelta_add (a b : timedelta) : timedelta :=
  timedelta_of_microseconds (total_microseconds a + total_microseconds b).

(** [self + other] for a [datetime] and a [timedelta]. *)
Definition datetime_add (self : datetime) (other : timedelta)
  : outcome datetime :=
  let delta :=
    timedelta_add
      (timedelta_new (toordinal self) (hour self) (minute self) (second self)
                     (microsecond self))
      other in
  let hour := seconds delta / 3600 in
  let rem := seconds delta mod 3600 in
  let minute := rem / 60 in
  let second := rem mod 60 in
  if (0 <? days delta) && (days delta <=? _MAXORDINAL) then
    let '(y, m, d) := _ord2ymd (days delta) in
    Return (mkdatetime y m d hour minute second (microseconds delta))
  else Raise (OverflowError DateValueOutOfRange).

(** The comparison of two naive datetimes: that of the tuples of their
    fields. *)
Fixpoint tuple_cmp (a b : list Z) : comparison :=
  match a, b with
  | x :: a', y :: b' =>
      match x ?= y with
      | Eq => tuple_cmp a' b'
      | c => c
      end
  | [], [] => Eq
  | [], _ :: _ => Lt
  | _ :: _, [] => Gt
  end.

Definition fields (t : datetime) : list Z :=
  [year t; month t; day t; hour t; minute t; second t; microsecond t].

Definition datetime_cmp (a b : datetime) : comparison :=
  tuple_cmp (fields a) (fields b).

(** [a <= b] *)
Definition datetime_le (a b : datetime) : bool :=
  match datetime_cmp a b with Gt => false | _ => true end.

(** ** strptime *)

(** The regular expressions [_strptime] builds, matched as [re.match] does:
    [rmatch r s] lists, in the order backtracking tries them, the ways [r]
    matches a prefix of [s], each as the text matched and the rest. *)
Inductive regex : Type :=
| Chr (c : ascii)
| Cls (p : ascii -> bool)
| Cat (r1 r2 : regex)
| Alt (r1 r2 : regex).

Fixpoint rmatch (r : regex) (s : string) : list (string * string) :=
  match r with
  | Chr c =>
      match s with
      | String x t => if Ascii.eqb x c then [(String x "", t)] else []
      | EmptyString => []
      end
  | Cls p =>
      match s with
      | String x t => if p x then [(String x "", t)] else []
      | EmptyString => []
      end
  | Cat r1 r2 =>
      flat_map (fun at1 =>
                  map (fun bt2 => (fst at1 ++ fst bt2, snd bt2))
                      (rmatch r2 (snd at1)))
               (rmatch r1 s)
  | Alt r1 r2 => rmatch r1 s ++ rmatch r2 s
  end.

Definition digit : regex := Cls is_decimal.

(** [3[0-1]|[1-2]\d|0[1-9]|[1-9]| [1-9]] *)
Definition re_d : regex :=
  Alt (Cat (Chr "3") (Cls (in_range "0" "1")))
 (Alt (Cat (Cls (in_range "1" "2")) digit)
 (Alt (Cat (Chr "0") (Cls (in_range "1" "9")))
 (Alt (Cls (in_range "1" "9"))
      (Cat (Chr " ") (Cls (in_range "1" "9")))))).

(** [1[0-2]|0[1-9]|[1-9]] *)
Definition re_m : regex :=
  Alt (Cat (Chr "1") (Cls (in_range "0" "2")))
 (Alt (Cat (Chr "0") (Cls (in_range "1" "9")))
      (Cls (in_range "1" "9"))).

(** [\d\d\d\d] *)
Definition re_Y : regex := Cat digit (Cat digit (Cat digit digit)).

Definition re_dot : regex := Chr ".".

(** The groups found by the pattern of the format ["%d.%m.%Y"],
    [(?P<d>...)\.(?P<m>...)\.(?P<Y>...)]. *)
Record found : Type := mkfound {
  group_d : string; group_m : string; group_Y : string;
  after : string  (* the text from [found.end()] on *)
}.

Definition format_regex_matches (data_string : string) : list found :=
  flat_map (fun d =>
  flat_map (fun dot1 =>
  flat_map (fun m =>
  flat_map (fun dot2 =>
  map (fun y => mkfound (fst d) (fst m) (fst y) (snd y))
      (rmatch re_Y (snd dot2)))
      (rmatch re_dot (snd m)))
      (rmatch re_m (snd dot1)))
      (rmatch re_dot (snd d)))
      (rmatch re_d data_string).

Definition format_regex_match (data_string : string) : option found :=
  hd_error (format_regex_matches data_string).

Fixpoint lstrip (s : string) : string :=
  match s with
  | String c r => if char_isspace c then lstrip r else s
  | EmptyString => EmptyString
  end.

Fixpoint digits_value (acc : Z) (s : string) : Z * string :=
  match s with
  | String c r =>
      if is_decimal c then digits_value (10 * acc + (ord c - 48)) r
      else (acc, s)
  | EmptyString => (acc, EmptyString)
  end.

(** [int(s)] on a text of decimal digits with white space around them,
    which is all a group of the pattern can capture.  A sign or an
    underscore is not read. *)
Definition int (s : string) : outcome Z :=
  match lstrip s with
  | String c r =>
      if is_decimal c then
        let (v, rest) := digits_value 0 (String c r) in
        if str_all char_isspace rest then Return v
        else Raise (ValueError (Text "invalid literal for int()"))
      else Raise (ValueError (Text "invalid literal for int()"))
  | EmptyString => Raise (ValueError (Text "invalid literal for int()"))
  end.

Definition date_format : string := "%d.%m.%Y".

(** [datetime.strptime(data_string, "%d.%m.%Y")] *)
Definition strptime (data_string : string) : outcome datetime :=
  match format_regex_match data_string with
  | None => Raise (ValueError (TimeDataDoesNotMatch data_string date_format))
  | Some f =>
      if negb (String.eqb (after f) "")
      then Raise (ValueError (UnconvertedDataRemains (after f)))
      else
        year <-- int (group_Y f) ;;
        month <-- int (group_m f) ;;
        day <-- int (group_d f) ;;
        _ <-- _check_date_fields year month day ;;
        datetime_new year month day 0 0 0 0
  end.

Definition decimal (n : Z) : string :=
  DecimalString.NilZero.string_of_uint (N.to_uint (Z.to_N n)).

Definition zero_padded2 (n : Z) : string :=
  if n <? 10 then "0" ++ decimal n else decimal n.

(** [self.strftime("%d.%m.%Y")]; the year is printed as the C library of
    Linux prints it, without padding. *)
Definition strftime (self : datetime) : string :=
  zero_padded2 (day self) ++ "." ++ zero_padded2 (month self) ++ "."
  ++ decimal (year self).

Definition Birthday_init (value : string) : outcome Birthday :=
  except_ValueError
    (_ <-- strptime value ;; Return (mkBirthday value))
    (Raise (ValueError msg_date_format)).

Definition add_birthday (birthday : string) : M Record_ unit :=
  b <- lift (Birthday_init birthday) ;;
  self <- get ;;
  put (set_birthday self (Some b)).

(** ** AddressBook *)

Record AddressBook : Type := mkAddressBook { data : dict Record_ }.

Definition AddressBook_init : AddressBook := mkAddressBook [].

Definition add_record (record : Record_) : M AddressBook unit :=
  self <- get ;;
  put (mkAddressBook (dict_setitem (name_value (name record)) record (data self))).

Definition find (name : string) (self : AddressBook) : option Record_ :=
  dict_get name (data self).

Definition delete (name : string) : M AddressBook unit :=
  self <- get ;;
  if dict_contains name (data self)
  then put (mkAddressBook (dict_delitem name (data self)))
  else raise (KeyError msg_contact_not_found).

(** An item of the list [get_upcoming_birthdays] returns. *)
Record entry : Type := mkentry { entry_name : string; entry_birthday : string }.

(** The body of the loop of [get_upcoming_birthdays] for one record: the
    list [birthdays] after it. *)
Definition upcoming_step (today next_week : datetime) (record : Record_)
           (birthdays : list entry) : outcome (list entry) :=
  match birthday record with
  | Some b =>
      bday_date <-- strptime (birthday_value b) ;;
      bday_this_year <-- replace_year bday_date (year today) ;;
      if datetime_le today bday_this_year && datetime_le bday_this_year next_week
      then Return (birthdays
                   ++ [mkentry (name_value (name record)) (strftime bday_this_year)])%list
      else Return birthdays
  | None => Return birthdays
  end.

Fixpoint upcoming_loop (today next_week : datetime) (records : list Record_)
         (birthdays : list entry) : outcome (list entry) :=
  match records with
  | [] => Return birthdays
  | record :: rest =>
      birthdays' <-- upcoming_step today next_week record birthdays ;;
      upcoming_loop today next_week rest birthdays'
  end.

Definition get_upcoming_birthdays (today : datetime) (self : AddressBook)
  : outcome (list entry) :=
  next_week <-- datetime_add today (timedelta_new 7 0 0 0 0) ;;
  upcoming_loop today next_week (dict_values (data self)) [].

(** The calendar day of a datetime, and the order of calendar days. *)
Definition date_of (t : datetime) : list Z := [year t; month t; day t].

Definition date_lt (a b : datetime) : Prop :=
  tuple_cmp (date_of a) (date_of b) = Lt.

(** ** The wording of the specification *)

(** The clock is past midnight. *)
Definition after_midnight (t : datetime) : Prop :=
  0 <= hour t /\ 0 <= minute t /\ 0 <= second t /\ 0 <= microsecond t
  /\ 0 < hour t + minute t + second t + microsecond t.

Definition every_char (P : ascii -> Prop) (s : string) : Prop :=
  forall c, In c (list_ascii_of_string s) -> P c.

(** A decimal digit character: 0..9. *)
Definition is_decimal_digit_char (c : ascii) : Prop := 48 <= ord c <= 57.

(** A digit character in the sense of [str.isdigit]: a decimal digit or one
    of the superscript digits U+00B2, U+00B3, U+00B9. *)
Definition is_digit_char (c : ascii) : Prop :=
  is_decimal_digit_char c \/ ord c = 178 \/ ord c = 179 \/ ord c = 185.

(** The texts a regular expression matches in full. *)
Fixpoint lang (r : regex) (a : string) : Prop :=
  match r with
  | Chr c => a = String c ""
  | Cls p => exists x, p x = true /\ a = String x ""
  | Cat r1 r2 => exists a1 a2, a = a1 ++ a2 /\ lang r1 a1 /\ lang r2 a2
  | Alt r1 r2 => lang r1 a \/ lang r2 a
  end.

(** The character of a digit [0 <= n <= 9]. *)
Definition digit_char (n : Z) : ascii := ascii_of_N (Z.to_N (48 + n)).

Definition one_digit (n : Z) : string := String (digit_char n) "".

Definition two_digits (n : Z) : string :=
  String (digit_char (n / 10)) (String (digit_char (n mod 10)) "").

Definition four_digits (n : Z) : string :=
  String (digit_char (n / 1000))
 (String (digit_char (n / 100 mod 10))
 (String (digit_char (n / 10 mod 10))
 (String (digit_char (n mod 10)) ""))).

(** The ways [strptime] lets a day be written: with two digits, or, below
    ten, with one digit, alone or after a space. *)
Definition day_text (d : Z) (t : string) : Prop :=
  t = two_digits d \/ (d <= 9 /\ (t = one_digit d \/ t = " " ++ one_digit d)).

(** The ways it lets a month be written: with two digits, or, below ten,
    with one. *)
Definition month_text (m : Z) (t : string) : Prop :=
  t = two_digits m \/ (m <= 9 /\ t = one_digit m).

Definition leap_year (y : Z) : bool :=
  ((y mod 4 =? 0) && negb (y mod 100 =? 0)) || (y mod 400 =? 0).

Definition month_length (y m : Z) : Z :=
  if (m =? 4) || (m =? 6) || (m =? 9) || (m =? 11) then 30
  else if m =? 2 then (if leap_year y then 29 else 28)
  else 31.

(** A day of the calendar, in the years 1 to 9999. *)
Definition real_date (y m d : Z) : Prop :=
  1 <= y <= 9999 /\ 1 <= m <= 12 /\ 1 <= d <= month_length y m.

(** The values [Birthday] takes. *)
Definition accepted_birthday (value : string) : Prop :=
  exists y m d dt mt,
    real_date y m d /\ day_text d dt /\ month_text m mt
    /\ value = dt ++ "." ++ mt ++ "." ++ four_digits y.

(** The values of the form DD.MM.YYYY, all three zero-padded. *)
Definition zero_padded_form (value : string) : Prop :=
  exists y m d,
    value = two_digits d ++ "." ++ two_digits m ++ "." ++ four_digits y.

Definition no_dot (a : string) : Prop :=
  str_all (fun c => negb (Ascii.eqb c ".")) a = true.

(** ** Sample data *)

Definition superscript_two : ascii := ascii_of_nat 178.

(** Ten times the character U+00B2. *)
Definition ten_superscripts : string :=
  string_of_list_ascii (repeat superscript_two 10).

Definition record_two_phones : Record_ :=
  mkRecord (mkName "Ann") [mkPhone "1111111111"; mkPhone "2222222222"] None.

Definition record_with_birthday (n b : string) : Record_ :=
  mkRecord (mkName n) [] (Some (mkBirthday b)).

Definition book_of (records : list Record_) : AddressBook :=
  mkAddressBook (map (fun r => (name_value (name r), r)) records).

(** ** Rendering *)

(** The line feed. *)
Definition nl : string := String (ascii_of_nat 10) "".

(** [sep.join(l)] *)
Fixpoint str_join (sep : string) (l : list string) : string :=
  match l with
  | [] => ""
  | x :: rest =>
      match rest with
      | [] => x
      | _ :: _ => x ++ sep ++ str_join sep rest
      end
  end.

(** [Record.__str__] *)
Definition Record_str (self : Record_) : string :=
  let phones := str_join "; " (map phone_value (phones self)) in
  let birthday :=
    match birthday self with
    | Some b => birthday_value b
    | None => "N/A"
    end in
  "Contact name: " ++ name_value (name self) ++ ", phones: " ++ phones
  ++ ", birthday: " ++ birthday.

(** [AddressBook.__str__] *)
Definition AddressBook_str (self : AddressBook) : string :=
  str_join nl (map Record_str (dict_values (data self))).

(** ** Splitting a line into words *)

(** The longest prefix without white space, and what follows it. *)
Fixpoint take_word (s : string) : string * string :=
  match s with
  | String c r =>
      if char_isspace c then (EmptyString, s)
      else let (w, t) := take_word r in (String c w, t)
  | EmptyString => (EmptyString, EmptyString)
  end.

(** [s.split()]: the maximal runs of characters that are not white space,
    read in one pass with the word in progress in [cur]. *)
Fixpoint split_from (cur : string) (s : string) : list string :=
  match s with
  | String c r =>
      if char_isspace c then
        (if String.eqb cur "" then split_from "" r
         else cur :: split_from "" r)
      else split_from (cur ++ String c "") r
  | EmptyString => if String.eqb cur "" then [] else [cur]
  end.

Definition str_split (s : string) : list string := split_from "" s.

(** [s.split(maxsplit=1)]: the first word, and the rest of the line from its
    first character that is not white space, when there is one. *)
Definition str_split_maxsplit1 (s : string) : list string :=
  match lstrip s with
  | EmptyString => []
  | String c r =>
      let (w, t) := take_word (String c r) in
      match lstrip t with
      | EmptyString => [w]
      | String c' r' => [w; String c' r']
      end
  end.

(** A word: a text that is not empty and has no white space. *)
Definition is_word (w : string) : Prop :=
  w <> "" /\ str_all (fun c => negb (char_isspace c)) w = true.

(** ** What a valid book holds *)

Definition phone_ok (p : Phone) : Prop :=
  isdigit (phone_value p) = true /\ len (phone_value p) = 10.

Definition record_ok (r : Record_) : Prop :=
  Forall phone_ok (phones r)
  /\ forall b, birthday r = Some b -> accepted_birthday (birthday_value b).

(** [record.name.value] *)
Definition record_key (r : Record_) : string := name_value (name r).

(** No key twice, every record stored under its own name, and valid. *)
Definition book_ok (b : AddressBook) : Prop :=
  NoDup (dict_keys (data b))
  /\ forall k r, In (k, r) (data b) -> record_key r = k /\ record_ok r.

(** The entry of a record whose birthday, put into the year of [today], is
    from [today] to [next_week], both as the clock has them. *)
Definition upcoming_at (today next_week : datetime) (record : Record_)
           (e : entry) : Prop :=
  exists b bday_date bday_this_year,
    birthday record = Some b
    /\ strptime (birthday_value b) = Return bday_date
    /\ replace_year bday_date (year today) = Return bday_this_year
    /\ datetime_le today bday_this_year = true
    /\ datetime_le bday_this_year next_week = true
    /\ e = mkentry (record_key record) (strftime bday_this_year).

(** A day that is a 29th of February. *)
Definition leap_day (d : datetime) : Prop := month d = 2 /\ day d = 29.

(** A datetime the constructor takes. *)
Definition datetime_ok (t : datetime) : Prop :=
  real_date (year t) (month t) (day t)
  /\ 0 <= hour t <= 23 /\ 0 <= minute t <= 59 /\ 0 <= second t <= 59
  /\ 0 <= microsecond t <= 999999.

(** ** Assistant *)

(** What the assistant does to its surroundings: a message shown by the
    view, a prompt of the view for a line, the book handed to [pickle.dump]
    for a file.  The file system is taken to accept the write. *)
Inductive event : Type :=
| Displayed (message : string)
| Prompted (prompt : string)
| Dumped (filename : string) (book : AddressBook).

(** The assistant and its surroundings: [self.book], the events so far,
    oldest first, and the number of readings of the clock so far. *)
Record World : Type := mkWorld {
  book : AddressBook;
  trace : list event;
  ticks : nat
}.

(** The exceptions of the assistant: those of the book and two more. *)
Inductive exception : Type :=
| Exn (e : exn)
| IndexError (m : message)
| EOFError (m : message).

Inductive result (A : Type) : Type :=
| Ok (a : A)
| Throw (e : exception).
Arguments Ok {A} a.
Arguments Throw {A} e.

Definition IO (A : Type) : Type := World -> result A * World.

Definition ioret {A : Type} (a : A) : IO A := fun w => (Ok a, w).
Definition throw {A : Type} (e : exception) : IO A := fun w => (Throw e, w).
Definition iobind {A B : Type} (m : IO A) (k : A -> IO B) : IO B :=
  fun w =>
    match m w with
    | (Ok a, w') => k a w'
    | (Throw e, w') => (Throw e, w')
    end.

Notation "'let*' x ':=' m 'in' k" := (iobind m (fun x => k))
  (at level 10, x name, m at level 100, k at level 200) : py_scope.
Notation "m '>>' k" := (iobind m (fun _ => k))
  (at level 62, right associativity) : py_scope.

Definition set_book (w : World) (b : AddressBook) : World :=
  mkWorld b (trace w) (ticks w).

Definition of_outcome {A : Type} (o : outcome A) : result A :=
  match o with
  | Return a => Ok a
  | Raise e => Throw (Exn e)
  end.

(** A constructor call or another computation without effect on the world. *)
Definition pure_call {A : Type} (o : outcome A) : IO A :=
  fun w => (of_outcome o, w).

(** A method of [self.book]. *)
Definition on_book {A : Type} (m : M AddressBook A) : IO A :=
  fun w => let (o, b) := m (book w) in (of_outcome o, set_book w b).

(** [self.book.find(name)] *)
Definition book_find (name : string) : IO (option Record_) :=
  fun w => (Ok (find name (book w)), w).

(** A method of a record of the book. The record is an object the book
    refers to: [record] is its state, [key] the key it is stored under, and
    what the method does to it shows in the book. *)
Definition on_record {A : Type} (key : string) (record : Record_)
           (m : M Record_ A) : IO A :=
  fun w =>
    let (o, r) := m record in
    (of_outcome o,
     set_book w (mkAddressBook (dict_setitem key r (data (book w))))).

(** The errors of [name, phone, *_ = words], of [name, birthday = words] and
    the like. *)
Definition not_enough_at_least (expected : Z) (words : list string) : exception :=
  Exn (ValueError (Text ("not enough values to unpack (expected at least "
                         ++ decimal expected ++ ", got "
                         ++ decimal (Z.of_nat (List.length words)) ++ ")"))).

Definition not_enough (expected : Z) (words : list string) : exception :=
  Exn (ValueError (Text ("not enough values to unpack (expected "
                         ++ decimal expected ++ ", got "
                         ++ decimal (Z.of_nat (List.length words)) ++ ")"))).

Definition too_many (expected : Z) : exception :=
  Exn (ValueError (Text ("too many values to unpack (expected "
                         ++ decimal expected ++ ")"))).

Module Assistant.

(** [self.view.display(message)] *)
Definition display (message : string) : IO unit :=
  fun w => (Ok tt, mkWorld (book w) (trace w ++ [Displayed message]) (ticks w)).

(** [save_data]: the book goes to [pickle.dump]. *)
Definition save_data : IO unit :=
  fun w =>
    (Ok tt,
     mkWorld (book w) (trace w ++ [Dumped "addressbook.pkl" (book w)]) (ticks w)).

(** [load_data]: [file] is what [pickle.load] gives for the file, [None]
    when there is no file. *)
Definition load_data (file : option AddressBook) : AddressBook :=
  match file with
  | Some b => b
  | None => AddressBook_init
  end.

(** The assistant after [__init__]. *)
Definition init (file : option AddressBook) : World :=
  mkWorld (load_data file) [] 0.

Definition add_contact (args : string) : IO unit :=
  match str_split args with
  | name :: phone :: _ =>
      let* found := book_find name in
      let* ref :=
        match found with
        | None =>
            let* record := pure_call (Record_init name) in
            on_book (add_record record) >>
            ioret (record_key record, record, "Contact added.")
        | Some record => ioret (name, record, "Contact updated.")
        end in
      let '(key, record, message) := ref in
      (if negb (String.eqb phone "")
       then on_record key record (add_phone phone)
       else ioret tt) >>
      display message
  | words => throw (not_enough_at_least 2 words)
  end.

Definition change_contact (args : string) : IO unit :=
  match str_split args with
  | [name; old_phone; new_phone] =>
      let* found := book_find name in
      match found with
      | Some record =>
          on_record name record (edit_phone old_phone new_phone) >>
          display "Contact updated."
      | None => display "Contact not found."
      end
  | _ :: _ :: _ :: _ :: _ => throw (too_many 3)
  | words => throw (not_enough 3 words)
  end.

Definition show_phone (args : string) : IO unit :=
  match str_split args with
  | name :: _ =>
      let* found := book_find name in
      match found with
      | Some record => display (Record_str record)
      | None => display "Contact not found."
      end
  | words => throw (not_enough_at_least 1 words)
  end.

Definition add_birthday (args : string) : IO unit :=
  match str_split args with
  | [name; birthday] =>
      let* found := book_find name in
      match found with
      | Some record =>
          on_record name record (add_birthday birthday) >>
          display "Birthday added."
      | None => display "Contact not found."
      end
  | _ :: _ :: _ :: _ => throw (too_many 2)
  | words => throw (not_enough 2 words)
  end.

Definition show_birthday (args : string) : IO unit :=
  match str_split args with
  | name :: _ =>
      let* found := book_find name in
      match found with
      | Some record =>
          match birthday record with
          | Some b => display ("Birthday: " ++ birthday_value b)
          | None => display "Birthday not found."
          end
      | None => display "Birthday not found."
      end
  | words => throw (not_enough_at_least 1 words)
  end.

Definition list_all (_ : string) : IO unit :=
  fun w =>
    display (match data (book w) with
             | [] => "No contacts found."
             | _ :: _ => AddressBook_str (book w)
             end) w.

Section Clock.

(** [clock n] is what the clock shows when it is read for the [n]th time. *)
Variable clock : nat -> datetime.

(** [datetime.today()] *)
Definition today : IO datetime :=
  fun w => (Ok (clock (ticks w)), mkWorld (book w) (trace w) (S (ticks w))).

Definition upcoming_birthdays (_ : string) : IO unit :=
  let* now := today in
  let* birthdays :=
    (fun w => (of_outcome (get_upcoming_birthdays now (book w)), w)) in
  match birthdays with
  | _ :: _ =>
      display (str_join nl
                 (map (fun b => entry_name b ++ ": " ++ entry_birthday b)
                      birthdays))
  | [] => display "No upcoming birthdays."
  end.

(** [self.commands] *)
Definition commands : dict (string -> IO unit) :=
  [("add", add_contact);
   ("change", change_contact);
   ("phone", show_phone);
   ("add-birthday", add_birthday);
   ("show-birthday", show_birthday);
   ("birthdays", upcoming_birthdays);
   ("all", list_all)].

(** The loop of [run] on the lines the user enters; [input] raises EOFError
    when there is none left. *)
Fixpoint run_loop (lines : list string) : IO unit :=
  fun w =>
    let w := mkWorld (book w) (trace w ++ [Prompted "Enter a command: "])
                     (ticks w) in
    match lines with
    | [] => (Throw (EOFError (Text "EOF when reading a line")), w)
    | user_input :: lines' =>
        match str_split_maxsplit1 user_input with
        | [] => (Throw (IndexError (Text "list index out of range")), w)
        | command :: parts' =>
            let args := match parts' with a :: _ => a | [] => "" end in
            if existsb (String.eqb command) ["close"; "exit"]
            then (save_data >> display "Good bye!") w
            else
              ((match dict_get command commands with
                | Some handler => handler args
                | None => display "Invalid command."
                end) >>
               run_loop lines') w
        end
    end.

Definition run (lines : list string) : IO unit :=
  display "Welcome to the assistant bot!" >> run_loop lines.

End Clock.

End Assistant.

(** A handler that shows exactly one message when it returns and none when
    it raises, and does nothing else to the view or the file. *)
Definition shows_one_message (handler : string -> IO unit) : Prop :=
  forall args w,
    match fst (handler args w) with
    | Ok _ => exists msg, trace (snd (handler args w))
                          = (trace w ++ [Displayed msg])%list
    | Throw _ => trace (snd (handler args w)) = trace w
    end.

(** A handler that keeps a valid book valid, whether it returns or raises. *)
Definition keeps_book_ok (handler : string -> IO unit) : Prop :=
  forall args w, book_ok (book w) -> book_ok (book (snd (handler args w))).

(** What [run] does with a command that is not [close] or [exit]: the
    handler of the table, or the message for a command it does not have. *)
Definition dispatch (clock : nat -> datetime) (command args : string) : IO unit :=
  match dict_get command (Assistant.commands clock) with
  | Some handler => handler args
  | None => Assistant.display "Invalid command."
  end.

(** The books that went to [pickle.dump], oldest first. *)
Fixpoint dumps (tr : list event) : list AddressBook :=
  match tr with
  | [] => []
  | Dumped _ b :: rest => b :: dumps rest
  | _ :: rest => dumps rest
  end.

(** The command of a line: [parts[0]], when there is one. *)
Definition command_of (line : string) : option string :=
  hd_error (str_split_maxsplit1 line).

(** Lines whose command is none of the given ones. *)
Definition no_command (commands : list string) (lines : list string) : Prop :=
  forall line command,
    In line lines -> command_of line = Some command -> ~ In command commands.

(* ------------------------------------------------------------------ *)
(** * Properties *)

Example strptime_padded :
  strptime "29.02.2000" = Return (mkdatetime 2000 2 29 0 0 0 0).
Proof. reflexivity. Qed.

Example strptime_not_padded :
  strptime " 1.1.2000" = Return (mkdatetime 2000 1 1 0 0 0 0).
Proof. reflexivity. Qed.

(** ** Name and Record construction *)

(** C10. [Name(value)] and [Record(name)] succeed for every string, the empty
    one included, and store it as it is; no exception is raised. *)
Theorem Name_init_no_validation (value : string) :
  Name_init value = Return (mkName value)
  /\ Record_init value = Return (mkRecord (mkName value) [] None)
  /\ name_value (mkName value) = value.
Proof. repeat split. Qed.

(** ** Phone construction *)

Lemma str_all_every_char (p : ascii -> bool) (P : ascii -> Prop) (s : string) :
  (forall c, p c = true <-> P c) ->
  str_all p s = true <-> every_char P s.
Proof.
  intros Hp. unfold every_char.
  induction s as [|a s IH]; simpl.
  - split; [intros _ c []|reflexivity].
  - rewrite andb_true_iff, IH, Hp. split.
    + intros [Ha Hs] c [<-|Hc]; auto.
    + intros H. split; [apply H; now left|intros c Hc; apply H; now right].
Qed.

Lemma char_isdigit_spec (c : ascii) : char_isdigit c = true <-> is_digit_char c.
Proof.
  unfold char_isdigit, is_decimal, in_range, is_digit_char, is_decimal_digit_char.
  change (ord "0") with 48. change (ord "9") with 57.
  rewrite !orb_true_iff, andb_true_iff, !Z.leb_le, !Z.eqb_eq. tauto.
Qed.

Lemma isdigit_len10 (s : string) :
  isdigit s = true /\ len s = 10
  <-> every_char is_digit_char s /\ String.length s = 10%nat.
Proof.
  unfold len.
  rewrite <- (str_all_every_char char_isdigit is_digit_char s char_isdigit_spec).
  destruct s as [|a s]; simpl isdigit.
  - simpl. split; intros [? ?]; [discriminate|lia].
  - split; intros [? ?]; split; auto; lia.
Qed.

(** C5, as the code has it. [Phone(value)] succeeds exactly when every
    character of the value is a digit in the sense of [str.isdigit] (a
    decimal digit or a superscript digit) and the length is 10, and then the
    value is stored as it is; every other value raises the ValueError of the
    phone validation. *)
Theorem Phone_init_spec (value : string) :
  (every_char is_digit_char value /\ String.length value = 10%nat ->
   Phone_init value = Return (mkPhone value))
  /\ (~ (every_char is_digit_char value /\ String.length value = 10%nat) ->
      Phone_init value = Raise (ValueError msg_phone_digits))
  /\ kind_of (ValueError msg_phone_digits) = Some ValidationError.
Proof.
  rewrite <- isdigit_len10. unfold Phone_init.
  destruct (isdigit value) eqn:Hd; destruct (len value =? 10) eqn:Hl; simpl;
    repeat split; try reflexivity; intros H.
  - exfalso. apply H. split; [reflexivity|now apply Z.eqb_eq].
  - destruct H as [_ H]. apply Z.eqb_neq in Hl. contradiction.
  - destruct H; discriminate.
  - destruct H; discriminate.
Qed.

Lemma Phone_init_spec_witness :
  Phone_init "0123456789" = Return (mkPhone "0123456789")
  /\ Phone_init "12345" = Raise (ValueError msg_phone_digits).
Proof.
  split.
  - apply (proj1 (Phone_init_spec "0123456789")). split.
    + intros c Hc. apply char_isdigit_spec.
      simpl in Hc. repeat (destruct Hc as [<-|Hc]; [reflexivity|]). destruct Hc.
    + reflexivity.
  - apply (proj1 (proj2 (Phone_init_spec "12345"))).
    intros [_ H]. discriminate H.
Defined.

(** C5, as it is stated, fails: ten superscript digits are not decimal digit
    characters, and [Phone] accepts them. *)
Lemma Phone_init_accepts_superscripts :
  Phone_init ten_superscripts = Return (mkPhone ten_superscripts)
  /\ String.length ten_superscripts = 10%nat
  /\ ~ every_char is_decimal_digit_char ten_superscripts.
Proof.
  repeat split.
  intros H. specialize (H superscript_two (or_introl eq_refl)).
  unfold is_decimal_digit_char in H. vm_compute in H.
  destruct H as [_ H]. apply H. reflexivity.
Qed.

(** ** Editing the phones of a record *)

Lemma find_phone_in_value (x : string) (l : list Phone) (p : Phone) :
  find_phone_in x l = Some p -> phone_value p = x.
Proof.
  induction l as [|q l IH]; simpl; [discriminate|].
  destruct (String.eqb_spec (phone_value q) x) as [E|_]; auto.
  intros [= <-]. exact E.
Qed.

Lemma find_phone_in_None (x : string) (l : list Phone) :
  find_phone_in x l = None <-> ~ In x (map phone_value l).
Proof.
  induction l as [|q l IH]; simpl; [tauto|].
  destruct (String.eqb_spec (phone_value q) x) as [E|N].
  - split; [discriminate|]. intros H. exfalso. apply H. now left.
  - rewrite IH. tauto.
Qed.

Lemma find_phone_in_Some (x : string) (l : list Phone) :
  In x (map phone_value l) -> exists p, find_phone_in x l = Some p.
Proof.
  intros H. destruct (find_phone_in x l) as [p|] eqn:E; [now exists p|].
  apply find_phone_in_None in E. contradiction.
Qed.

Lemma find_phone_in_app (x : string) (l l' : list Phone) (p : Phone) :
  find_phone_in x l = Some p -> find_phone_in x (l ++ l') = Some p.
Proof.
  induction l as [|q l IH]; simpl; [discriminate|].
  destruct (String.eqb (phone_value q) x); auto.
Qed.

(** Removing the phone [find_phone] found removes the first occurrence of
    its value. *)
Lemma list_remove_found (x : string) (l : list Phone) (p : Phone) :
  find_phone_in x l = Some p ->
  exists l', list_remove Phone_eqb p l = Return l'
             /\ map phone_value l' = remove_first x (map phone_value l).
Proof.
  intros Hf. pose proof (find_phone_in_value _ _ _ Hf) as Hp.
  revert Hf. induction l as [|q l IH]; simpl; [discriminate|].
  unfold Phone_eqb at 1. rewrite Hp.
  destruct (String.eqb (phone_value q) x).
  - intros _. now exists l.
  - intros Hf. destruct (IH Hf) as [l' [E1 E2]].
    rewrite E1. simpl. exists (q :: l'). simpl. now rewrite E2.
Qed.

Lemma add_phone_valid (new_phone : string) (self : Record_) :
  isdigit new_phone = true -> len new_phone = 10 ->
  add_phone new_phone self
  = (Return tt, set_phones self (phones self ++ [mkPhone new_phone])).
Proof.
  intros Hd Hl. unfold add_phone, bind, lift, Phone_init.
  rewrite Hd, Hl. reflexivity.
Qed.

Lemma add_phone_invalid (new_phone : string) (self : Record_) :
  isdigit new_phone = false \/ len new_phone <> 10 ->
  add_phone new_phone self = (Raise (ValueError msg_phone_digits), self).
Proof.
  intros H. unfold add_phone, bind, lift, Phone_init.
  destruct H as [->|H]; [reflexivity|].
  apply Z.eqb_neq in H. rewrite H, orb_true_r. reflexivity.
Qed.

(** C2. When [old_phone] is among the phones of the record and [new_phone]
    is a valid phone, [edit_phone] returns and leaves the phone list that
    appending [new_phone] and then removing the first occurrence of
    [old_phone] gives; the name and the birthday are as before. *)
Theorem edit_phone_appends_then_removes
        (self : Record_) (old_phone new_phone : string) :
  In old_phone (phone_values self) ->
  isdigit new_phone = true -> len new_phone = 10 ->
  exists self',
    edit_phone old_phone new_phone self = (Return tt, self')
    /\ phone_values self'
       = remove_first old_phone (phone_values self ++ [new_phone])
    /\ name self' = name self /\ birthday self' = birthday self.
Proof.
  intros Hin Hd Hl.
  destruct (find_phone_in_Some _ _ Hin) as [p Hp].
  pose proof (find_phone_in_app _ _ [mkPhone new_phone] _ Hp) as Hp'.
  destruct (list_remove_found _ _ _ Hp') as [l' [E1 E2]].
  exists (set_phones self l'). repeat split.
  - unfold edit_phone, bind at 1, get, find_phone. rewrite Hp.
    unfold bind at 1. rewrite (add_phone_valid _ _ Hd Hl).
    unfold remove_phone, bind, get, lift, put, find_phone. simpl.
    rewrite Hp', E1. reflexivity.
  - unfold phone_values. simpl. rewrite E2, map_app. reflexivity.
Qed.

Lemma edit_phone_appends_then_removes_witness :
  exists self',
    edit_phone "1111111111" "3333333333" record_two_phones = (Return tt, self')
    /\ phone_values self' = ["2222222222"; "3333333333"].
Proof.
  destruct (edit_phone_appends_then_removes
              record_two_phones "1111111111" "3333333333")
    as [self' [H1 [H2 _]]].
  - simpl. now left.
  - reflexivity.
  - reflexivity.
  - exists self'. split; [exact H1|]. rewrite H2. reflexivity.
Defined.

(** C3. A failing [edit_phone] changes nothing: when [old_phone] is not
    among the phones it raises the ValueError "Phone not found." and the
    record is as before, and when [old_phone] is there and [new_phone] is not
    a valid phone it raises the ValueError of the phone validation and the
    record is as before. *)
Theorem edit_phone_failure_atomic
        (self : Record_) (old_phone new_phone : string) :
  (~ In old_phone (phone_values self) ->
   edit_phone old_phone new_phone self
   = (Raise (ValueError msg_phone_not_found), self))
  /\ (In old_phone (phone_values self) ->
      isdigit new_phone = false \/ len new_phone <> 10 ->
      edit_phone old_phone new_phone self
      = (Raise (ValueError msg_phone_digits), self))
  /\ kind_of (ValueError msg_phone_not_found) = Some NotFoundError
  /\ kind_of (ValueError msg_phone_digits) = Some ValidationError.
Proof.
  repeat split.
  - intros Hn. apply find_phone_in_None in Hn.
    unfold edit_phone, bind, get, find_phone. rewrite Hn. reflexivity.
  - intros Hin Hbad. destruct (find_phone_in_Some _ _ Hin) as [p Hp].
    unfold edit_phone, bind at 1, get, find_phone. rewrite Hp.
    unfold bind. rewrite (add_phone_invalid _ _ Hbad). reflexivity.
Qed.

Lemma edit_phone_failure_atomic_witness :
  edit_phone "9999999999" "3333333333" record_two_phones
  = (Raise (ValueError msg_phone_not_found), record_two_phones)
  /\ edit_phone "1111111111" "12ab" record_two_phones
     = (Raise (ValueError msg_phone_digits), record_two_phones).
Proof.
  split.
  - apply (proj1 (edit_phone_failure_atomic
                    record_two_phones "9999999999" "3333333333")).
    simpl. intros [H|[H|[]]]; discriminate H.
  - apply (proj1 (proj2 (edit_phone_failure_atomic
                           record_two_phones "1111111111" "12ab"))).
    + simpl. now left.
    + left. reflexivity.
Defined.

(** ** Deleting from the address book *)

Lemma dict_get_delitem_same {V : Type} (k : string) (d : dict V) :
  dict_get k (dict_delitem k d) = None.
Proof.
  induction d as [|[k' v] d IH]; simpl; [reflexivity|].
  destruct (String.eqb k' k) eqn:E; simpl; [exact IH|].
  rewrite E. exact IH.
Qed.

Lemma dict_get_delitem_other {V : Type} (k other : string) (d : dict V) :
  other <> k -> dict_get other (dict_delitem k d) = dict_get other d.
Proof.
  intros Hne. induction d as [|[k' v] d IH]; simpl; [reflexivity|].
  destruct (String.eqb_spec k' k) as [->|N]; simpl.
  - destruct (String.eqb_spec k other) as [E|_]; [congruence|exact IH].
  - now rewrite IH.
Qed.

(** C7. [delete(name)] on a book that has the name returns and leaves a book
    without it, every other name keeping its record; on a book that does not
    have the name it raises the KeyError "Contact not found." and the book is
    as before. *)
Theorem delete_spec (self : AddressBook) (name : string) :
  (find name self <> None ->
   exists self',
     delete name self = (Return tt, self')
     /\ find name self' = None
     /\ (forall other, other <> name -> find other self' = find other self)
     /\ data self' = dict_delitem name (data self))
  /\ (find name self = None ->
      delete name self = (Raise (KeyError msg_contact_not_found), self))
  /\ kind_of (KeyError msg_contact_not_found) = Some NotFoundError.
Proof.
  unfold find, delete, bind, get, dict_contains. repeat split.
  - intros H. destruct (dict_get name (data self)); [|contradiction].
    eexists. repeat split.
    + apply dict_get_delitem_same.
    + intros other Hne. now apply dict_get_delitem_other.
  - intros ->. reflexivity.
Qed.

Lemma delete_spec_witness :
  (exists self',
      delete "Ann" (book_of [record_two_phones; record_with_birthday "Bob" "01.06.1990"])
      = (Return tt, self')
      /\ data self' = [("Bob", record_with_birthday "Bob" "01.06.1990")])
  /\ delete "Eve" (book_of [record_two_phones])
     = (Raise (KeyError msg_contact_not_found), book_of [record_two_phones]).
Proof.
  split.
  - destruct (proj1 (delete_spec
                       (book_of [record_two_phones;
                                 record_with_birthday "Bob" "01.06.1990"]) "Ann"))
      as [self' [H1 [_ [_ H2]]]].
    + discriminate.
    + exists self'. split; [exact H1|]. rewrite H2. reflexivity.
  - apply (proj1 (proj2 (delete_spec (book_of [record_two_phones]) "Eve"))).
    reflexivity.
Defined.

(** ** Upcoming birthdays *)

Section Loop.

Variables today next_week : datetime.

Lemma upcoming_loop_app (l1 l2 : list Record_) (birthdays : list entry) :
  upcoming_loop today next_week (l1 ++ l2)%list birthdays
  = (acc <-- upcoming_loop today next_week l1 birthdays ;;
     upcoming_loop today next_week l2 acc).
Proof.
  revert birthdays. induction l1 as [|r l1 IH]; intros birthdays; simpl.
  - reflexivity.
  - destruct (upcoming_step today next_week r birthdays) as [acc|e]; simpl.
    + apply IH.
    + reflexivity.
Qed.

(** A record whose step raises makes the loop raise, at that record or
    before it. *)
Lemma upcoming_loop_raises (record : Record_) (records : list Record_) :
  (forall birthdays, exists e,
        upcoming_step today next_week record birthdays = Raise e) ->
  In record records ->
  forall birthdays, exists e,
      upcoming_loop today next_week records birthdays = Raise e.
Proof.
  intros Hstep. induction records as [|r records IH]; intros Hin birthdays.
  - destruct Hin.
  - simpl.
    destruct (upcoming_step today next_week r birthdays) as [acc|e] eqn:E.
    + simpl. destruct Hin as [->|Hin].
      * destruct (Hstep birthdays) as [e He]. congruence.
      * apply IH. exact Hin.
    + exists e. reflexivity.
Qed.

End Loop.

Lemma dict_values_app {V : Type} (d1 d2 : dict V) :
  dict_values (d1 ++ d2)%list = (dict_values d1 ++ dict_values d2)%list.
Proof. apply map_app. Qed.

(** A datetime whose calendar day is before that of [b] is not [>= b]. *)
Lemma date_lt_not_le (a b : datetime) :
  date_lt a b -> datetime_le b a = false.
Proof.
  unfold date_lt, datetime_le, datetime_cmp, fields, date_of. simpl.
  rewrite (Z.compare_antisym (year a) (year b)).
  rewrite (Z.compare_antisym (month a) (month b)).
  rewrite (Z.compare_antisym (day a) (day b)).
  destruct (year a ?= year b); simpl; try discriminate; auto.
  destruct (month a ?= month b); simpl; try discriminate; auto.
  destruct (day a ?= day b); simpl; try discriminate; auto.
Qed.

Lemma upcoming_step_before_today
      (today next_week : datetime) (record : Record_) (b : Birthday)
      (bday_date bday_this_year : datetime) (birthdays : list entry) :
  birthday record = Some b ->
  strptime (birthday_value b) = Return bday_date ->
  replace_year bday_date (year today) = Return bday_this_year ->
  date_lt bday_this_year today ->
  upcoming_step today next_week record birthdays = Return birthdays.
Proof.
  intros Hb Hs Hr Hlt. unfold upcoming_step. rewrite Hb, Hs. simpl.
  rewrite Hr. simpl. rewrite (date_lt_not_le _ _ Hlt). reflexivity.
Qed.

(** C6. No wraparound into the next year: a record whose birthday, put into
    the year of [today], is a calendar day before [today] adds nothing to the
    list, whatever the other records are: the loop body leaves the list as it
    is, and the call returns what it returns on the book without that
    record. *)
Theorem no_year_wraparound
        (today : datetime) (before after_ : dict Record_) (key : string)
        (record : Record_) (b : Birthday) (bday_date bday_this_year : datetime) :
  birthday record = Some b ->
  strptime (birthday_value b) = Return bday_date ->
  replace_year bday_date (year today) = Return bday_this_year ->
  date_lt bday_this_year today ->
  (forall next_week birthdays,
      upcoming_step today next_week record birthdays = Return birthdays)
  /\ get_upcoming_birthdays today (mkAddressBook (before ++ (key, record) :: after_)%list)
     = get_upcoming_birthdays today (mkAddressBook (before ++ after_)%list).
Proof.
  intros Hb Hs Hr Hlt.
  assert (Hstep : forall next_week birthdays,
             upcoming_step today next_week record birthdays = Return birthdays).
  { intros. eapply upcoming_step_before_today; eassumption. }
  split; [exact Hstep|].
  unfold get_upcoming_birthdays. simpl data.
  destruct (datetime_add today (timedelta_new 7 0 0 0 0)) as [next_week|e];
    simpl; [|reflexivity].
  rewrite !dict_values_app, !upcoming_loop_app.
  destruct (upcoming_loop today next_week (dict_values before) []); simpl;
    [|reflexivity].
  rewrite Hstep. reflexivity.
Qed.

Lemma no_year_wraparound_witness :
  get_upcoming_birthdays (mkdatetime 2024 12 30 10 30 0 0)
    (book_of [record_with_birthday "Ann" "29.12.1990"])
  = Return [].
Proof.
  pose proof (no_year_wraparound
                (mkdatetime 2024 12 30 10 30 0 0) [] [] "Ann"
                (record_with_birthday "Ann" "29.12.1990")
                (mkBirthday "29.12.1990")
                (mkdatetime 1990 12 29 0 0 0 0)
                (mkdatetime 2024 12 29 0 0 0 0)
                eq_refl eq_refl eq_refl eq_refl) as [_ H].
  simpl app in H. unfold book_of. simpl map. rewrite H. reflexivity.
Defined.

Lemma replace_year_leap_day (d : datetime) (y : Z) :
  month d = 2 -> day d = 29 -> _is_leap y = false ->
  exists e, replace_year d y = Raise e.
Proof.
  intros Hm Hd Hl. unfold replace_year, datetime_new, _check_date_fields.
  rewrite Hm, Hd. unfold _days_in_month. rewrite Hl. simpl.
  destruct (negb ((MINYEAR <=? y) && (y <=? MAXYEAR))); simpl; eexists; reflexivity.
Qed.

(** C9. [get_upcoming_birthdays] raises whenever the year of [today] is not
    a leap year and the book holds a record whose birthday is a 29 February
    (such as "29.02.2000"): [replace(year=...)] raises for that day, and so
    does the call. *)
Theorem get_upcoming_birthdays_leap_day_raises
        (today : datetime) (self : AddressBook) (key : string)
        (record : Record_) (b : Birthday) (bday_date : datetime) :
  _is_leap (year today) = false ->
  In (key, record) (data self) ->
  birthday record = Some b ->
  strptime (birthday_value b) = Return bday_date ->
  month bday_date = 2 -> day bday_date = 29 ->
  (exists e, replace_year bday_date (year today) = Raise e)
  /\ (exists e, get_upcoming_birthdays today self = Raise e).
Proof.
  intros Hl Hin Hb Hs Hm Hd.
  pose proof (replace_year_leap_day bday_date (year today) Hm Hd Hl) as Hr.
  split; [exact Hr|]. unfold get_upcoming_birthdays.
  destruct (datetime_add today (timedelta_new 7 0 0 0 0)) as [next_week|e];
    simpl; [|now exists e].
  apply upcoming_loop_raises with (record := record).
  - intros birthdays. unfold upcoming_step. rewrite Hb, Hs. simpl.
    destruct Hr as [e ->]. exists e. reflexivity.
  - unfold dict_values. change record with (snd (key, record)).
    apply in_map. exact Hin.
Qed.

Lemma get_upcoming_birthdays_leap_day_raises_witness :
  Birthday_init "29.02.2000" = Return (mkBirthday "29.02.2000")
  /\ exists e,
      get_upcoming_birthdays (mkdatetime 2023 6 1 12 0 0 0)
        (book_of [record_two_phones; record_with_birthday "Bob" "29.02.2000"])
      = Raise e.
Proof.
  split; [reflexivity|].
  apply (get_upcoming_birthdays_leap_day_raises
           (mkdatetime 2023 6 1 12 0 0 0)
           (book_of [record_two_phones; record_with_birthday "Bob" "29.02.2000"])
           "Bob" (record_with_birthday "Bob" "29.02.2000")
           (mkBirthday "29.02.2000") (mkdatetime 2000 2 29 0 0 0 0)).
  - reflexivity.
  - simpl. right. left. reflexivity.
  - reflexivity.
  - reflexivity.
  - reflexivity.
  - reflexivity.
Defined.

(** [strptime] returns the midnight of the day. *)
Lemma strptime_midnight (value : string) (t : datetime) :
  strptime value = Return t ->
  hour t = 0 /\ minute t = 0 /\ second t = 0 /\ microsecond t = 0.
Proof.
  unfold strptime.
  destruct (format_regex_match value) as [f|]; [|discriminate].
  destruct (negb (after f =? "")%string); [discriminate|].
  destruct (int (group_Y f)) as [y|]; [|discriminate].
  destruct (int (group_m f)) as [m|]; [|discriminate].
  destruct (int (group_d f)) as [d|]; [|discriminate].
  cbn [obind]. unfold datetime_new.
  destruct (_check_date_fields y m d) as [[]|]; [|discriminate].
  cbn. intros [= <-]. auto.
Qed.

Lemma replace_year_Return (d : datetime) (y : Z) (t : datetime) :
  replace_year d y = Return t ->
  t = mkdatetime y (month d) (day d)
                 (hour d) (minute d) (second d) (microsecond d).
Proof.
  unfold replace_year, datetime_new.
  destruct (_check_date_fields y (month d) (day d)) as [[]|]; [|discriminate].
  cbn [obind].
  destruct (_check_time_fields (hour d) (minute d) (second d) (microsecond d))
    as [[]|]; [|discriminate].
  cbn [obind]. now intros [= <-].
Qed.

Lemma after_midnight_not_le (today : datetime) (y m d : Z) :
  after_midnight today ->
  year today = y -> month today = m -> day today = d ->
  datetime_le today (mkdatetime y m d 0 0 0 0) = false.
Proof.
  intros [Hh [Hm [Hs [Hu Hpos]]]] <- <- <-.
  unfold datetime_le, datetime_cmp, fields. simpl.
  rewrite !Z.compare_refl.
  destruct (Z.compare_spec (hour today) 0); try lia; try reflexivity.
  destruct (Z.compare_spec (minute today) 0); try lia; try reflexivity.
  destruct (Z.compare_spec (second today) 0); try lia; try reflexivity.
  destruct (Z.compare_spec (microsecond today) 0); try lia; reflexivity.
Qed.

(** Whenever the clock is past midnight, a record whose birthday falls on
    the day of [today] adds nothing to the list. *)
Lemma upcoming_step_today_after_midnight
      (today next_week : datetime) (record : Record_) (b : Birthday)
      (bday_date : datetime) (birthdays birthdays' : list entry) :
  after_midnight today ->
  birthday record = Some b ->
  strptime (birthday_value b) = Return bday_date ->
  month bday_date = month today -> day bday_date = day today ->
  upcoming_step today next_week record birthdays = Return birthdays' ->
  birthdays' = birthdays.
Proof.
  intros Ht Hb Hs Hm Hd. unfold upcoming_step. rewrite Hb, Hs. cbn [obind].
  destruct (replace_year bday_date (year today)) as [t|] eqn:Hr;
    [|discriminate].
  apply replace_year_Return in Hr.
  destruct (strptime_midnight _ _ Hs) as [E1 [E2 [E3 E4]]].
  rewrite E1, E2, E3, E4 in Hr. subst t. cbn [obind].
  rewrite (after_midnight_not_le today _ _ _ Ht eq_refl (eq_sym Hm) (eq_sym Hd)).
  cbn. now intros [= <-].
Qed.

(** C1, at the input where the code departs from it. With the clock at noon
    of 2024-06-01, a birthday whose day this year is 2024-06-01 is left out
    (midnight of that day is before noon), while the days 2024-06-02 and
    2024-06-08 are in the list and 2024-06-09 and 2024-05-31 are not. *)
Theorem birthday_of_today_left_out :
  get_upcoming_birthdays (mkdatetime 2024 6 1 12 0 0 0)
    (book_of [record_with_birthday "Bob" "01.06.1990"])
  = Return []
  /\ get_upcoming_birthdays (mkdatetime 2024 6 1 12 0 0 0)
       (book_of [record_with_birthday "May" "31.05.1990";
                 record_with_birthday "Bob" "01.06.1990";
                 record_with_birthday "Cat" "02.06.1990";
                 record_with_birthday "Dan" "08.06.1990";
                 record_with_birthday "Eve" "09.06.1990"])
     = Return [mkentry "Cat" "02.06.2024"; mkentry "Dan" "08.06.2024"].
Proof. split; reflexivity. Qed.

(** ** Birthday construction *)

Lemma append_nil_r (a : string) : a ++ "" = a.
Proof. induction a as [|c a IH]; simpl; [reflexivity|now rewrite IH]. Qed.

Lemma append_assoc (a b c : string) : (a ++ b) ++ c = a ++ (b ++ c).
Proof. induction a as [|x a IH]; simpl; [reflexivity|now rewrite IH]. Qed.

(** [rmatch] lists exactly the splits of the text into a match and a rest. *)
Lemma rmatch_lang (r : regex) :
  forall s a t, In (a, t) (rmatch r s) <-> s = a ++ t /\ lang r a.
Proof.
  induction r as [c|p|r1 IH1 r2 IH2|r1 IH1 r2 IH2]; intros s a t; simpl.
  - destruct s as [|x s]; simpl.
    + split; [tauto|]. intros [H ->]. discriminate H.
    + destruct (Ascii.eqb_spec x c) as [->|N]; simpl.
      * split.
        -- intros [[= <- <-]|[]]. auto.
        -- intros [H ->]. simpl in H. injection H as ->. now left.
      * split; [tauto|]. intros [H ->]. simpl in H. injection H as H _.
        contradiction.
  - destruct s as [|x s]; simpl.
    + split; [tauto|]. intros [H [y [_ ->]]]. discriminate H.
    + destruct (p x) eqn:E; simpl.
      * split.
        -- intros [[= <- <-]|[]]. split; [reflexivity|]. now exists x.
        -- intros [H [y [_ ->]]]. simpl in H. injection H as -> ->. now left.
      * split; [tauto|]. intros [H [y [Hy ->]]]. simpl in H.
        injection H as -> _. congruence.
  - rewrite in_flat_map. split.
    + intros [[a1 t1] [H1 H2]]. apply in_map_iff in H2.
      destruct H2 as [[a2 t2] [[= <- <-] H2]]. simpl in *.
      apply IH1 in H1. apply IH2 in H2. destruct H1 as [-> L1], H2 as [-> L2].
      split; [now rewrite append_assoc|]. now exists a1, a2.
    + intros [-> [a1 [a2 [-> [L1 L2]]]]].
      exists (a1, a2 ++ t). split.
      * apply IH1. split; [apply append_assoc|exact L1].
      * apply in_map_iff. exists (a2, t). split; [reflexivity|].
        apply IH2. auto.
  - rewrite in_app_iff, IH1, IH2. tauto.
Qed.

Lemma format_regex_matches_spec (s : string) (f : found) :
  In f (format_regex_matches s)
  <-> s = group_d f ++ "." ++ group_m f ++ "." ++ group_Y f ++ after f
      /\ lang re_d (group_d f) /\ lang re_m (group_m f) /\ lang re_Y (group_Y f).
Proof.
  unfold format_regex_matches. split.
  - intros H.
    apply in_flat_map in H. destruct H as [[d s1] [Hd H]].
    apply in_flat_map in H. destruct H as [[x1 s2] [H1 H]].
    apply in_flat_map in H. destruct H as [[m s3] [Hm H]].
    apply in_flat_map in H. destruct H as [[x2 s4] [H2 H]].
    apply in_map_iff in H. destruct H as [[y s5] [<- Hy]]. cbn [fst snd] in *.
    apply rmatch_lang in Hd, H1, Hm, H2, Hy.
    destruct Hd as [-> Ld], H1 as [-> L1], Hm as [-> Lm], H2 as [-> L2],
             Hy as [-> Ly].
    cbn [group_d group_m group_Y after]. unfold re_dot in L1, L2.
    simpl in L1, L2. subst x1 x2. auto.
  - destruct f as [d m y t]. cbn [group_d group_m group_Y after].
    intros [-> [Ld [Lm Ly]]].
    apply in_flat_map. exists (d, "." ++ m ++ "." ++ y ++ t). split.
    { apply (rmatch_lang re_d). auto. }
    apply in_flat_map. exists (".", m ++ "." ++ y ++ t). split.
    { apply (rmatch_lang re_dot). split; reflexivity. }
    apply in_flat_map. exists (m, "." ++ y ++ t). split.
    { apply (rmatch_lang re_m). auto. }
    apply in_flat_map. exists (".", y ++ t). split.
    { apply (rmatch_lang re_dot). split; reflexivity. }
    apply in_map_iff. exists (y, t). split; [reflexivity|].
    apply (rmatch_lang re_Y). auto.
Qed.

(** *** Digits *)

Lemma ord_digit_char (k : Z) : 0 <= k <= 9 -> ord (digit_char k) = 48 + k.
Proof.
  intros H. unfold ord, digit_char. rewrite N_ascii_embedding; lia.
Qed.

Lemma digit_char_ord (x : ascii) : digit_char (ord x - 48) = x.
Proof.
  unfold ord, digit_char.
  replace (48 + (Z.of_N (N_of_ascii x) - 48)) with (Z.of_N (N_of_ascii x)) by lia.
  rewrite N2Z.id. apply ascii_N_embedding.
Qed.

Lemma in_range_spec (lo hi x : ascii) :
  in_range lo hi x = true <-> ord lo <= ord x <= ord hi.
Proof. unfold in_range. rewrite andb_true_iff, !Z.leb_le. tauto. Qed.

Lemma class_digit_char (lo hi : ascii) (a b : Z) (x : ascii) :
  ord lo = 48 + a -> ord hi = 48 + b ->
  in_range lo hi x = true ->
  exists k, a <= k <= b /\ x = digit_char k.
Proof.
  intros Ha Hb H. apply in_range_spec in H. exists (ord x - 48).
  split; [lia|]. symmetry. apply digit_char_ord.
Qed.

(** A character of a class of digits is [digit_char k] for a [k] in the
    bounds of the class. *)
Ltac class_digit H k Hk :=
  lazymatch type of H with
  | in_range ?lo ?hi ?x = true =>
      let a := eval vm_compute in (ord lo - 48) in
      let b := eval vm_compute in (ord hi - 48) in
      destruct (class_digit_char lo hi a b x eq_refl eq_refl H) as [k [Hk ->]]
  | is_decimal ?x = true =>
      unfold is_decimal in H; class_digit H k Hk
  end.

(** The cases [k = lo], [k = lo + 1], ... of a bounded integer. *)
Ltac enum_from k lo fuel :=
  lazymatch fuel with
  | O => exfalso; lia
  | S ?f =>
      destruct (Z.eq_dec k lo) as [->|?];
      [|let lo' := eval vm_compute in (lo + 1) in enum_from k lo' f]
  end.

Lemma lang_rmatch (r : regex) (a : string) :
  lang r a <-> In (a, "") (rmatch r a).
Proof.
  rewrite rmatch_lang, append_nil_r. tauto.
Qed.

Lemma lang_re_d_inv (t : string) :
  lang re_d t ->
  exists d, 1 <= d <= 31 /\ day_text d t /\ int t = Return d /\ no_dot t.
Proof.
  unfold day_text.
  intros [[a1 [a2 [-> [-> [x [Hx ->]]]]]]
         |[[a1 [a2 [-> [[x1 [H1 ->]] [x2 [H2 ->]]]]]]
         |[[a1 [a2 [-> [-> [x [Hx ->]]]]]]
         |[[x [Hx ->]]
         |[a1 [a2 [-> [-> [x [Hx ->]]]]]]]]]].
  - class_digit Hx k Hk. exists (30 + k).
    enum_from k 0 2%nat; (split; [lia|]); repeat split; now left.
  - class_digit H1 k1 Hk1. class_digit H2 k2 Hk2. exists (10 * k1 + k2).
    enum_from k1 1 2%nat; enum_from k2 0 10%nat;
      (split; [lia|]); repeat split; now left.
  - class_digit Hx k Hk. exists k.
    enum_from k 1 9%nat; (split; [lia|]); repeat split; now left.
  - class_digit Hx k Hk. exists k.
    enum_from k 1 9%nat; (split; [lia|]); repeat split;
      right; (split; [lia|]); now left.
  - class_digit Hx k Hk. exists k.
    enum_from k 1 9%nat; (split; [lia|]); repeat split;
      right; (split; [lia|]); now right.
Qed.

Lemma lang_re_d_intro (d : Z) (t : string) :
  1 <= d <= 31 -> day_text d t ->
  lang re_d t /\ int t = Return d /\ no_dot t.
Proof.
  intros Hd [->|[H9 [->| ->]]]; rewrite lang_rmatch.
  - enum_from d 1 31%nat; repeat split; simpl; tauto.
  - enum_from d 1 9%nat; repeat split; simpl; tauto.
  - enum_from d 1 9%nat; repeat split; simpl; tauto.
Qed.

Lemma lang_re_m_inv (t : string) :
  lang re_m t ->
  exists m, 1 <= m <= 12 /\ month_text m t /\ int t = Return m /\ no_dot t.
Proof.
  unfold month_text.
  intros [[a1 [a2 [-> [-> [x [Hx ->]]]]]]
         |[[a1 [a2 [-> [-> [x [Hx ->]]]]]]
         |[x [Hx ->]]]].
  - class_digit Hx k Hk. exists (10 + k).
    enum_from k 0 3%nat; (split; [lia|]); repeat split; now left.
  - class_digit Hx k Hk. exists k.
    enum_from k 1 9%nat; (split; [lia|]); repeat split; now left.
  - class_digit Hx k Hk. exists k.
    enum_from k 1 9%nat; (split; [lia|]); repeat split;
      right; (split; [lia|]); reflexivity.
Qed.

Lemma lang_re_m_intro (m : Z) (t : string) :
  1 <= m <= 12 -> month_text m t ->
  lang re_m t /\ int t = Return m /\ no_dot t.
Proof.
  intros Hm [->|[H9 ->]]; rewrite lang_rmatch.
  - enum_from m 1 12%nat; repeat split; simpl; tauto.
  - enum_from m 1 9%nat; repeat split; simpl; tauto.
Qed.

Lemma digit_char_is_decimal (k : Z) :
  0 <= k <= 9 -> is_decimal (digit_char k) = true.
Proof. intros H. enum_from k 0 10%nat; reflexivity. Qed.

Lemma digit_char_not_space (k : Z) :
  0 <= k <= 9 -> char_isspace (digit_char k) = false.
Proof. intros H. enum_from k 0 10%nat; reflexivity. Qed.

Lemma digits_value_digit (acc k : Z) (r : string) :
  0 <= k <= 9 ->
  digits_value acc (String (digit_char k) r) = digits_value (10 * acc + k) r.
Proof.
  intros H. simpl. rewrite digit_char_is_decimal, ord_digit_char by exact H.
  f_equal. lia.
Qed.

Lemma int_four_digit_chars (a b c d : Z) :
  0 <= a <= 9 -> 0 <= b <= 9 -> 0 <= c <= 9 -> 0 <= d <= 9 ->
  int (String (digit_char a) (String (digit_char b)
        (String (digit_char c) (String (digit_char d) ""))))
  = Return (1000 * a + 100 * b + 10 * c + d).
Proof.
  intros Ha Hb Hc Hd. unfold int. cbn [lstrip].
  rewrite digit_char_not_space, digit_char_is_decimal by exact Ha.
  rewrite !digits_value_digit by assumption. cbn [digits_value str_all].
  f_equal. lia.
Qed.

Lemma four_digits_chars (a b c d : Z) :
  0 <= a <= 9 -> 0 <= b <= 9 -> 0 <= c <= 9 -> 0 <= d <= 9 ->
  four_digits (1000 * a + 100 * b + 10 * c + d)
  = String (digit_char a) (String (digit_char b)
      (String (digit_char c) (String (digit_char d) ""))).
Proof.
  intros Ha Hb Hc Hd. unfold four_digits.
  set (n := 1000 * a + 100 * b + 10 * c + d).
  assert (E1 : n / 1000 = a) by (subst n; Z.div_mod_to_equations; lia).
  assert (E2 : n / 100 mod 10 = b) by (subst n; Z.div_mod_to_equations; lia).
  assert (E3 : n / 10 mod 10 = c) by (subst n; Z.div_mod_to_equations; lia).
  assert (E4 : n mod 10 = d) by (subst n; Z.div_mod_to_equations; lia).
  now rewrite E1, E2, E3, E4.
Qed.

Lemma four_digits_length (y : Z) : String.length (four_digits y) = 4%nat.
Proof. reflexivity. Qed.

Lemma lang_re_Y_inv (t : string) :
  lang re_Y t ->
  exists y, 0 <= y <= 9999 /\ t = four_digits y /\ int t = Return y.
Proof.
  intros [a1 [r1 [-> [[x1 [H1 ->]] [a2 [r2 [-> [[x2 [H2 ->]]
         [a3 [r3 [-> [[x3 [H3 ->]] [x4 [H4 ->]]]]]]]]]]]]]].
  class_digit H1 a Ha. class_digit H2 b Hb.
  class_digit H3 c Hc. class_digit H4 d Hd.
  exists (1000 * a + 100 * b + 10 * c + d). split; [lia|]. split.
  - symmetry. now apply four_digits_chars.
  - now apply int_four_digit_chars.
Qed.

Lemma lang_re_Y_intro (y : Z) :
  0 <= y <= 9999 ->
  lang re_Y (four_digits y) /\ int (four_digits y) = Return y.
Proof.
  intros Hy.
  assert (Ha : 0 <= y / 1000 <= 9) by (Z.div_mod_to_equations; lia).
  assert (Hb : 0 <= y / 100 mod 10 <= 9) by (Z.div_mod_to_equations; lia).
  assert (Hc : 0 <= y / 10 mod 10 <= 9) by (Z.div_mod_to_equations; lia).
  assert (Hd : 0 <= y mod 10 <= 9) by (Z.div_mod_to_equations; lia).
  split.
  - unfold four_digits.
    exists (String (digit_char (y / 1000)) ""),
           (String (digit_char (y / 100 mod 10))
              (String (digit_char (y / 10 mod 10))
                 (String (digit_char (y mod 10)) ""))).
    split; [reflexivity|]. split.
    { eexists. split; [|reflexivity]. now apply digit_char_is_decimal. }
    exists (String (digit_char (y / 100 mod 10)) ""),
           (String (digit_char (y / 10 mod 10))
              (String (digit_char (y mod 10)) "")).
    split; [reflexivity|]. split.
    { eexists. split; [|reflexivity]. now apply digit_char_is_decimal. }
    exists (String (digit_char (y / 10 mod 10)) ""),
           (String (digit_char (y mod 10)) "").
    split; [reflexivity|]. split.
    { eexists. split; [|reflexivity]. now apply digit_char_is_decimal. }
    eexists. split; [|reflexivity]. now apply digit_char_is_decimal.
  - unfold four_digits. rewrite int_four_digit_chars by assumption.
    f_equal. Z.div_mod_to_equations. lia.
Qed.

(** *** The match is unique *)

Lemma split_at_dot (a a' b b' : string) :
  no_dot a -> no_dot a' ->
  a ++ "." ++ b = a' ++ "." ++ b' -> a = a' /\ b = b'.
Proof.
  unfold no_dot. revert a'.
  induction a as [|c a IH]; intros [|c' a']; simpl; intros Ha Ha' E.
  - injection E as E. auto.
  - injection E as <- _. discriminate Ha'.
  - injection E as -> _. discriminate Ha.
  - injection E as <- E.
    apply andb_true_iff in Ha, Ha'. destruct Ha as [_ Ha], Ha' as [_ Ha'].
    destruct (IH a' Ha Ha' E) as [-> ->]. auto.
Qed.

Lemma split_at_length (a a' b b' : string) :
  String.length a = String.length a' ->
  a ++ b = a' ++ b' -> a = a' /\ b = b'.
Proof.
  revert a'. induction a as [|c a IH]; intros [|c' a']; simpl; intros L E;
    try discriminate L.
  - auto.
  - injection L as L. injection E as <- E.
    destruct (IH a' L E) as [-> ->]. auto.
Qed.

Lemma hd_error_unique {A : Type} (l : list A) (x : A) :
  In x l -> (forall y, In y l -> y = x) -> hd_error l = Some x.
Proof.
  destruct l as [|y l]; simpl; [tauto|].
  intros _ H. f_equal. apply H. now left.
Qed.

Lemma hd_error_In {A : Type} (l : list A) (x : A) :
  hd_error l = Some x -> In x l.
Proof. destruct l; simpl; [discriminate|]. intros [= ->]. now left. Qed.

Lemma format_regex_match_accepted (y m d : Z) (dt mt : string) :
  0 <= y <= 9999 -> 1 <= m <= 12 -> 1 <= d <= 31 ->
  day_text d dt -> month_text m mt ->
  format_regex_match (dt ++ "." ++ mt ++ "." ++ four_digits y)
  = Some (mkfound dt mt (four_digits y) "").
Proof.
  intros Hy Hm Hd Td Tm. unfold format_regex_match.
  destruct (lang_re_d_intro d dt Hd Td) as [Ld [_ Nd]].
  destruct (lang_re_m_intro m mt Hm Tm) as [Lm [_ Nm]].
  destruct (lang_re_Y_intro y Hy) as [Ly _].
  apply hd_error_unique.
  - apply format_regex_matches_spec. cbn [group_d group_m group_Y after].
    rewrite append_nil_r. auto.
  - intros [d' m' y' t'] H. apply format_regex_matches_spec in H.
    cbn [group_d group_m group_Y after] in H.
    destruct H as [E [Ld' [Lm' Ly']]].
    destruct (lang_re_d_inv d' Ld') as [? [_ [_ [_ Nd']]]].
    destruct (lang_re_m_inv m' Lm') as [? [_ [_ [_ Nm']]]].
    destruct (lang_re_Y_inv y' Ly') as [n [_ [Ey _]]].
    destruct (split_at_dot _ _ _ _ Nd Nd' E) as [<- E1].
    destruct (split_at_dot _ _ _ _ Nm Nm' E1) as [<- E2].
    rewrite <- (append_nil_r (four_digits y)) in E2.
    assert (L : String.length (four_digits y) = String.length y')
      by (rewrite Ey; reflexivity).
    destruct (split_at_length _ _ _ _ L E2) as [<- <-].
    reflexivity.
Qed.

(** *** The calendar *)

Lemma leap_year_is_leap (y : Z) : leap_year y = _is_leap y.
Proof.
  unfold leap_year, _is_leap.
  destruct (Z.eqb_spec (y mod 4) 0), (Z.eqb_spec (y mod 100) 0),
           (Z.eqb_spec (y mod 400) 0); simpl; try reflexivity;
    exfalso; Z.div_mod_to_equations; lia.
Qed.

Lemma month_length_days_in_month (y m : Z) :
  1 <= m <= 12 -> month_length y m = _days_in_month y m.
Proof.
  intros Hm. unfold month_length, _days_in_month.
  rewrite leap_year_is_leap.
  enum_from m 1 12%nat; simpl; try reflexivity;
    destruct (_is_leap y); reflexivity.
Qed.

Lemma _check_date_fields_ok (y m d : Z) :
  _check_date_fields y m d = Return tt <-> real_date y m d.
Proof.
  unfold _check_date_fields, real_date, MINYEAR, MAXYEAR.
  destruct ((1 <=? y) && (y <=? 9999)) eqn:Ey; simpl.
  - destruct ((1 <=? m) && (m <=? 12)) eqn:Em; simpl.
    + apply andb_true_iff in Ey, Em. rewrite !Z.leb_le in Ey, Em.
      rewrite month_length_days_in_month by lia.
      destruct ((1 <=? d) && (d <=? _days_in_month y m)) eqn:Ed; simpl.
      * apply andb_true_iff in Ed. rewrite !Z.leb_le in Ed. tauto.
      * split; [discriminate|]. intros [_ [_ H]].
        apply andb_false_iff in Ed. rewrite !Z.leb_gt in Ed. lia.
    + split; [discriminate|]. intros [_ [H _]].
      apply andb_false_iff in Em. rewrite !Z.leb_gt in Em. lia.
  - split; [discriminate|]. intros [H _].
    apply andb_false_iff in Ey. rewrite !Z.leb_gt in Ey. lia.
Qed.

Lemma month_length_le_31 (y m : Z) : month_length y m <= 31.
Proof.
  unfold month_length.
  destruct ((m =? 4) || (m =? 6) || (m =? 9) || (m =? 11)); [lia|].
  destruct (m =? 2); [destruct (leap_year y)|]; lia.
Qed.

(** *** What strptime takes *)

Lemma strptime_accepted (y m d : Z) (dt mt : string) :
  real_date y m d -> day_text d dt -> month_text m mt ->
  strptime (dt ++ "." ++ mt ++ "." ++ four_digits y)
  = Return (mkdatetime y m d 0 0 0 0).
Proof.
  intros R Td Tm. pose proof R as [Hy [Hm Hd]].
  pose proof (month_length_le_31 y m) as H31.
  unfold strptime.
  rewrite (format_regex_match_accepted y m d dt mt) by (assumption || lia).
  cbn [after group_d group_m group_Y String.eqb negb].
  destruct (lang_re_d_intro d dt) as [_ [-> _]]; [lia|assumption|].
  destruct (lang_re_m_intro m mt) as [_ [-> _]]; [lia|assumption|].
  destruct (lang_re_Y_intro y) as [_ ->]; [lia|].
  cbn [obind]. unfold datetime_new.
  apply _check_date_fields_ok in R. rewrite R. reflexivity.
Qed.

Lemma strptime_returns (value : string) (t : datetime) :
  strptime value = Return t -> accepted_birthday value.
Proof.
  unfold strptime.
  destruct (format_regex_match value) as [f|] eqn:Ef; [|discriminate].
  apply hd_error_In, format_regex_matches_spec in Ef.
  destruct Ef as [E [Ld [Lm Ly]]].
  destruct (String.eqb_spec (after f) "") as [Ea|_]; [|discriminate].
  cbn [negb].
  destruct (lang_re_d_inv _ Ld) as [d [Hd [Td [-> _]]]].
  destruct (lang_re_m_inv _ Lm) as [m [Hm [Tm [-> _]]]].
  destruct (lang_re_Y_inv _ Ly) as [y [Hy [Ey ->]]].
  cbn [obind].
  destruct (_check_date_fields y m d) as [[]|e] eqn:Ec; [|discriminate].
  intros _. apply _check_date_fields_ok in Ec.
  exists y, m, d, (group_d f), (group_m f). repeat split; try apply Ec; auto.
  rewrite E, Ea, Ey, append_nil_r. reflexivity.
Qed.

Lemma int_raises_ValueError (s : string) (e : exn) :
  int s = Raise e -> exists m, e = ValueError m.
Proof.
  unfold int. destruct (lstrip s) as [|c r]; [intros [= <-]; eauto|].
  destruct (is_decimal c); [|intros [= <-]; eauto].
  destruct (digits_value 0 (String c r)) as [v rest].
  destruct (str_all char_isspace rest); [discriminate|intros [= <-]; eauto].
Qed.

Lemma _check_date_fields_raises_ValueError (y m d : Z) (e : exn) :
  _check_date_fields y m d = Raise e -> exists msg, e = ValueError msg.
Proof.
  unfold _check_date_fields.
  repeat match goal with
         | |- context [if ?b then _ else _] => destruct b
         end; intros [= <-] || discriminate; eauto.
Qed.

Lemma datetime_new_raises_ValueError (y m d hh mm ss us : Z) (e : exn) :
  datetime_new y m d hh mm ss us = Raise e -> exists msg, e = ValueError msg.
Proof.
  unfold datetime_new.
  destruct (_check_date_fields y m d) as [[]|e'] eqn:E; cbn [obind].
  - unfold _check_time_fields.
    repeat match goal with
           | |- context [if ?b then _ else _] => destruct b
           end; cbn [obind]; intros [= <-] || discriminate; eauto.
  - intros [= <-]. eapply _check_date_fields_raises_ValueError. exact E.
Qed.

(** [strptime] raises nothing but ValueError. *)
Lemma strptime_raises_ValueError (value : string) (e : exn) :
  strptime value = Raise e -> exists m, e = ValueError m.
Proof.
  unfold strptime.
  destruct (format_regex_match value) as [f|]; [|intros [= <-]; eauto].
  destruct (negb (after f =? "")%string); [intros [= <-]; eauto|].
  destruct (int (group_Y f)) as [y|e1] eqn:E1; cbn [obind];
    [|intros [= <-]; eapply int_raises_ValueError; exact E1].
  destruct (int (group_m f)) as [m|e2] eqn:E2; cbn [obind];
    [|intros [= <-]; eapply int_raises_ValueError; exact E2].
  destruct (int (group_d f)) as [d|e3] eqn:E3; cbn [obind];
    [|intros [= <-]; eapply int_raises_ValueError; exact E3].
  destruct (_check_date_fields y m d) as [[]|e4] eqn:E4; cbn [obind];
    [|intros [= <-]; eapply _check_date_fields_raises_ValueError; exact E4].
  apply datetime_new_raises_ValueError.
Qed.

Lemma Birthday_init_cases (value : string) :
  (exists t, strptime value = Return t
             /\ Birthday_init value = Return (mkBirthday value))
  \/ ((exists e, strptime value = Raise e)
      /\ Birthday_init value = Raise (ValueError msg_date_format)).
Proof.
  unfold Birthday_init. destruct (strptime value) as [t|e] eqn:E.
  - left. exists t. auto.
  - right. split; [now exists e|].
    destruct (strptime_raises_ValueError value e E) as [m ->]. reflexivity.
Qed.

(** C4, as the code has it, for the values whose characters are all below
    U+0100, which are the strings here. For such a value, [Birthday(value)]
    succeeds exactly when the value is day.month.year with a four-digit year
    and a day and a month either zero-padded to two digits or written with
    one digit (the day then also after a space), the digits being 0 to 9,
    and these are a day of the calendar in the years 1 to 9999; every other
    such value raises the ValueError of the date format.
    So "29.02.2000" and "01.01.2000" succeed and "29.02.2001" and
    "31.04.2020" fail, and "1.1.2000", which is not zero-padded, succeeds.
    Values with a character from U+0100 on are outside this statement:
    [strptime] reads the decimal digits of other scripts too. *)
Theorem Birthday_init_spec (value : string) :
  (Birthday_init value = Return (mkBirthday value) <-> accepted_birthday value)
  /\ (Birthday_init value = Return (mkBirthday value)
      \/ Birthday_init value = Raise (ValueError msg_date_format))
  /\ kind_of (ValueError msg_date_format) = Some ValidationError
  /\ Birthday_init "29.02.2000" = Return (mkBirthday "29.02.2000")
  /\ Birthday_init "01.01.2000" = Return (mkBirthday "01.01.2000")
  /\ Birthday_init "29.02.2001" = Raise (ValueError msg_date_format)
  /\ Birthday_init "31.04.2020" = Raise (ValueError msg_date_format)
  /\ Birthday_init "1.1.2000" = Return (mkBirthday "1.1.2000").
Proof.
  split; [|split; [|repeat split]].
  - split.
    + intros H. destruct (Birthday_init_cases value) as [[t [Ht _]]|[_ E]].
      * eapply strptime_returns. exact Ht.
      * rewrite E in H. discriminate H.
    + intros [y [m [d [dt [mt [R [Td [Tm ->]]]]]]]].
      unfold Birthday_init. rewrite (strptime_accepted y m d dt mt R Td Tm).
      reflexivity.
  - destruct (Birthday_init_cases value) as [[t [_ E]]|[_ E]]; auto.
Qed.

(** C4, as it is stated, fails: "1.1.2000" is not of the zero-padded form
    and [Birthday] takes it. *)
Lemma Birthday_init_accepts_unpadded :
  Birthday_init "1.1.2000" = Return (mkBirthday "1.1.2000")
  /\ ~ zero_padded_form "1.1.2000".
Proof.
  split; [reflexivity|].
  intros [y [m [d E]]]. apply (f_equal String.length) in E.
  simpl in E. discriminate E.
Qed.

(* ------------------------------------------------------------------ *)
(** * Further properties of the record *)

Lemma set_phones_same (self : Record_) : set_phones self (phones self) = self.
Proof. destruct self. reflexivity. Qed.

Lemma remove_phone_found (phone : string) (self : Record_) (p : Phone) :
  find_phone_in phone (phones self) = Some p ->
  exists l,
    remove_phone phone self = (Return tt, set_phones self l)
    /\ map phone_value l = remove_first phone (phone_values self).
Proof.
  intros Hp. destruct (list_remove_found _ _ _ Hp) as [l [E1 E2]].
  exists l. split; [|exact E2].
  unfold remove_phone, bind, get, lift, put, find_phone. rewrite Hp, E1.
  reflexivity.
Qed.

Lemma remove_phone_absent (phone : string) (self : Record_) :
  find_phone_in phone (phones self) = None ->
  remove_phone phone self = (Raise (ValueError msg_phone_not_found), self).
Proof.
  intros Hn. unfold remove_phone, bind, get, find_phone. rewrite Hn.
  reflexivity.
Qed.

(** X1. [remove_phone] takes out the first phone with the value and nothing
    else; without such a phone it raises ValueError "Phone not found." and
    the record stays as it is. *)
Theorem remove_phone_spec (self : Record_) (phone : string) :
  (In phone (phone_values self) ->
   exists self',
     remove_phone phone self = (Return tt, self')
     /\ phone_values self' = remove_first phone (phone_values self)
     /\ name self' = name self /\ birthday self' = birthday self)
  /\ (~ In phone (phone_values self) ->
      remove_phone phone self = (Raise (ValueError msg_phone_not_found), self)).
Proof.
  split.
  - intros Hin. destruct (find_phone_in_Some _ _ Hin) as [p Hp].
    destruct (remove_phone_found _ _ _ Hp) as [l [E1 E2]].
    exists (set_phones self l). repeat split; assumption.
  - intros Hn. apply remove_phone_absent. now apply find_phone_in_None.
Qed.

Lemma remove_phone_spec_witness :
  (exists self',
      remove_phone "1111111111" record_two_phones = (Return tt, self')
      /\ phone_values self' = ["2222222222"])
  /\ remove_phone "0000000000" record_two_phones
     = (Raise (ValueError msg_phone_not_found), record_two_phones).
Proof.
  split.
  - destruct (proj1 (remove_phone_spec record_two_phones "1111111111"))
      as [self' [H1 [H2 _]]].
    + simpl. now left.
    + exists self'. split; [exact H1|]. rewrite H2. reflexivity.
  - apply (proj2 (remove_phone_spec record_two_phones "0000000000")).
    simpl. intros [H|[H|[]]]; discriminate H.
Defined.

Lemma remove_first_absent (x : string) (l : list string) :
  ~ In x l -> remove_first x l = l.
Proof.
  induction l as [|v l IH]; simpl; [reflexivity|]. intros H.
  destruct (String.eqb_spec v x) as [E|_]; [exfalso; auto|].
  rewrite IH; [reflexivity|]. intros Hin. apply H. now right.
Qed.

Lemma remove_first_app_in (x : string) (l l' : list string) :
  In x l -> remove_first x (l ++ l') = (remove_first x l ++ l')%list.
Proof.
  induction l as [|v l IH]; simpl; [tauto|]. intros H.
  destruct (String.eqb_spec v x) as [E|N]; [reflexivity|].
  destruct H as [H|H]; [contradiction|]. simpl. now rewrite IH.
Qed.

Lemma remove_first_app_absent (x : string) (l : list string) :
  ~ In x l -> remove_first x (l ++ [x]) = l.
Proof.
  induction l as [|v l IH]; simpl.
  - intros _. now rewrite String.eqb_refl.
  - intros H. destruct (String.eqb_spec v x) as [E|_]; [exfalso; auto|].
    rewrite IH; [reflexivity|]. intros Hin. apply H. now right.
Qed.

Lemma remove_first_length (x : string) (l : list string) :
  In x l -> S (List.length (remove_first x l)) = List.length l.
Proof.
  induction l as [|v l IH]; simpl; [tauto|]. intros H.
  destruct (String.eqb_spec v x) as [E|N]; [reflexivity|].
  destruct H as [H|H]; [contradiction|]. simpl. now rewrite IH.
Qed.

Lemma map_phone_value_inj (l l' : list Phone) :
  map phone_value l = map phone_value l' -> l = l'.
Proof.
  revert l'. induction l as [|[v] l IH]; intros [|[v'] l']; simpl;
    try discriminate; [reflexivity|].
  intros [= -> E]. now rewrite (IH _ E).
Qed.

(** X2. Adding a valid phone that the record does not have and removing it again
    gives the record back. *)
Theorem add_then_remove_phone (self : Record_) (phone : string) :
  isdigit phone = true -> len phone = 10 ->
  ~ In phone (phone_values self) ->
  (add_phone phone ;; remove_phone phone) self = (Return tt, self).
Proof.
  intros Hd Hl Hn. unfold bind at 1. rewrite (add_phone_valid _ _ Hd Hl).
  assert (Hin : In phone (phone_values (set_phones self (phones self ++ [mkPhone phone])))).
  { unfold phone_values. simpl. rewrite map_app. apply in_or_app. right.
    now left. }
  destruct (find_phone_in_Some _ _ Hin) as [p Hp].
  destruct (remove_phone_found _ _ _ Hp) as [l [E1 E2]].
  rewrite E1. f_equal.
  assert (E : phone_values (set_phones self (phones self ++ [mkPhone phone]))
              = (phone_values self ++ [phone])%list).
  { unfold phone_values. simpl. now rewrite map_app. }
  rewrite E, (remove_first_app_absent _ _ Hn) in E2.
  apply map_phone_value_inj in E2. subst l. destruct self. reflexivity.
Qed.

Lemma add_then_remove_phone_witness :
  (add_phone "3333333333" ;; remove_phone "3333333333") record_two_phones
  = (Return tt, record_two_phones).
Proof.
  apply (add_then_remove_phone record_two_phones "3333333333").
  - reflexivity.
  - reflexivity.
  - simpl. intros [H|[H|[]]]; discriminate H.
Defined.

Lemma edit_phone_valid (self : Record_) (old_phone new_phone : string) (p : Phone) :
  find_phone_in old_phone (phones self) = Some p ->
  isdigit new_phone = true -> len new_phone = 10 ->
  exists l,
    edit_phone old_phone new_phone self = (Return tt, set_phones self l)
    /\ map phone_value l
       = remove_first old_phone (phone_values self ++ [new_phone]).
Proof.
  intros Hp Hd Hl.
  pose proof (find_phone_in_app _ _ [mkPhone new_phone] _ Hp) as Hp'.
  destruct (list_remove_found _ _ _ Hp') as [l [E1 E2]].
  exists l. split.
  - unfold edit_phone, bind at 1, get, find_phone. rewrite Hp.
    unfold bind at 1. rewrite (add_phone_valid _ _ Hd Hl).
    unfold remove_phone, bind, get, lift, put, find_phone. simpl.
    rewrite Hp', E1. reflexivity.
  - rewrite E2, map_app. reflexivity.
Qed.

(** X3. A successful [edit_phone] keeps the other phones in their order, puts
    the new phone last and keeps the number of phones, also when the new
    value is the old one or is already there. *)
Theorem edit_phone_moves_to_tail
        (self : Record_) (old_phone new_phone : string) :
  In old_phone (phone_values self) ->
  isdigit new_phone = true -> len new_phone = 10 ->
  exists self',
    edit_phone old_phone new_phone self = (Return tt, self')
    /\ phone_values self'
       = (remove_first old_phone (phone_values self) ++ [new_phone])%list
    /\ List.length (phones self') = List.length (phones self).
Proof.
  intros Hin Hd Hl. destruct (find_phone_in_Some _ _ Hin) as [p Hp].
  destruct (edit_phone_valid _ _ _ _ Hp Hd Hl) as [l [E1 E2]].
  rewrite (remove_first_app_in _ _ _ Hin) in E2.
  exists (set_phones self l). split; [exact E1|]. split; [exact E2|].
  simpl. rewrite <- (length_map phone_value l), E2, length_app. simpl.
  pose proof (remove_first_length _ _ Hin) as H.
  unfold phone_values in H. rewrite length_map in H.
  unfold phone_values. lia.
Qed.

Lemma edit_phone_moves_to_tail_witness :
  exists self',
    edit_phone "1111111111" "1111111111" record_two_phones = (Return tt, self')
    /\ phone_values self' = ["2222222222"; "1111111111"].
Proof.
  destruct (edit_phone_moves_to_tail record_two_phones "1111111111" "1111111111")
    as [self' [H1 [H2 _]]].
  - simpl. now left.
  - reflexivity.
  - reflexivity.
  - exists self'. split; [exact H1|]. rewrite H2. reflexivity.
Defined.

Lemma find_phone_in_In (x : string) (l : list Phone) (p : Phone) :
  find_phone_in x l = Some p -> In p l.
Proof.
  induction l as [|q l IH]; simpl; [discriminate|].
  destruct (String.eqb (phone_value q) x).
  - intros [= ->]. now left.
  - intros H. right. now apply IH.
Qed.

(** X4. [find_phone] gives a phone of the record with the value asked for when
    there is one, and [None] exactly when there is none. *)
Theorem find_phone_spec (self : Record_) (phone : string) :
  (forall p, find_phone phone self = Some p ->
             In p (phones self) /\ phone_value p = phone)
  /\ (find_phone phone self = None <-> ~ In phone (phone_values self)).
Proof.
  unfold find_phone. split.
  - intros p Hp. split.
    + eapply find_phone_in_In. exact Hp.
    + eapply find_phone_in_value. exact Hp.
  - apply find_phone_in_None.
Qed.

Lemma find_phone_spec_witness :
  phone_value (mkPhone "2222222222") = "2222222222"
  /\ find_phone "0000000000" record_two_phones = None.
Proof.
  split.
  - apply (proj1 (find_phone_spec record_two_phones "2222222222")
                 (mkPhone "2222222222")).
    reflexivity.
  - apply (proj2 (find_phone_spec record_two_phones "0000000000")).
    simpl. intros [H|[H|[]]]; discriminate H.
Defined.

Lemma Birthday_init_accepted (value : string) :
  accepted_birthday value -> Birthday_init value = Return (mkBirthday value).
Proof.
  intros [y [m [d [dt [mt [R [Td [Tm ->]]]]]]]].
  unfold Birthday_init. rewrite (strptime_accepted y m d dt mt R Td Tm).
  reflexivity.
Qed.

Lemma Birthday_init_rejected (value : string) :
  ~ accepted_birthday value ->
  Birthday_init value = Raise (ValueError msg_date_format).
Proof.
  intros H. destruct (Birthday_init_cases value) as [[t [Ht _]]|[_ E]].
  - exfalso. apply H. eapply strptime_returns. exact Ht.
  - exact E.
Qed.

Lemma accepted_birthday_dec (value : string) :
  accepted_birthday value \/ ~ accepted_birthday value.
Proof.
  destruct (strptime value) as [t|e] eqn:E.
  - left. eapply strptime_returns. exact E.
  - right. intros [y [m [d [dt [mt [R [Td [Tm ->]]]]]]]].
    rewrite (strptime_accepted y m d dt mt R Td Tm) in E. discriminate E.
Qed.

(** X5. [add_birthday] with a value [Birthday] takes sets the birthday, in place
    of the one there was, and leaves the name and the phones; with any other
    value it raises the ValueError of the date format and the record keeps
    the birthday it had. *)
Theorem add_birthday_spec (self : Record_) (value : string) :
  (accepted_birthday value ->
   add_birthday value self
   = (Return tt, mkRecord (name self) (phones self) (Some (mkBirthday value))))
  /\ (~ accepted_birthday value ->
      add_birthday value self = (Raise (ValueError msg_date_format), self)).
Proof.
  unfold add_birthday, bind, lift, get, put. split; intros H.
  - rewrite (Birthday_init_accepted _ H). reflexivity.
  - rewrite (Birthday_init_rejected _ H). reflexivity.
Qed.

Lemma add_birthday_spec_witness :
  add_birthday "1.1.2000" (record_with_birthday "Ann" "29.12.1990")
  = (Return tt, record_with_birthday "Ann" "1.1.2000")
  /\ add_birthday "31.04.2020" (record_with_birthday "Ann" "29.12.1990")
     = (Raise (ValueError msg_date_format),
        record_with_birthday "Ann" "29.12.1990").
Proof.
  split.
  - apply (proj1 (add_birthday_spec (record_with_birthday "Ann" "29.12.1990")
                                    "1.1.2000")).
    exists 2000, 1, 1, "1", "1". repeat split; try (vm_compute; congruence).
    + right. split; [lia|]. now left.
    + right. split; [lia|]. reflexivity.
  - apply (proj2 (add_birthday_spec (record_with_birthday "Ann" "29.12.1990")
                                    "31.04.2020")).
    intros H. apply Birthday_init_accepted in H. discriminate H.
Defined.

(** *** The record stays valid *)

Lemma add_phone_cases (phone : string) (self : Record_) :
  (phone_ok (mkPhone phone)
   /\ add_phone phone self
      = (Return tt, set_phones self (phones self ++ [mkPhone phone])))
  \/ add_phone phone self = (Raise (ValueError msg_phone_digits), self).
Proof.
  destruct (isdigit phone) eqn:Hd.
  - destruct (Z.eq_dec (len phone) 10) as [Hl|Hl].
    + left. split; [split; assumption|]. now apply add_phone_valid.
    + right. apply add_phone_invalid. now right.
  - right. apply add_phone_invalid. now left.
Qed.

Lemma list_remove_incl {A : Type} (eqb : A -> A -> bool) (x : A) (l l' : list A) :
  list_remove eqb x l = Return l' -> incl l' l.
Proof.
  revert l'. induction l as [|v l IH]; simpl; intros l'; [discriminate|].
  destruct (eqb v x).
  - intros [= <-]. apply incl_tl, incl_refl.
  - destruct (list_remove eqb x l) as [r|]; simpl; [|discriminate].
    intros [= <-]. apply incl_cons; [now left|].
    apply incl_tl. now apply IH.
Qed.

Lemma record_ok_set_phones (self : Record_) (l : list Phone) :
  record_ok self -> Forall phone_ok l -> record_ok (set_phones self l).
Proof. intros [_ Hb] Hl. split; assumption. Qed.

Lemma add_phone_keeps_ok (phone : string) (self : Record_) :
  record_ok self -> record_ok (snd (add_phone phone self)).
Proof.
  intros Hok. destruct (add_phone_cases phone self) as [[Hp ->]| ->];
    [|exact Hok].
  apply record_ok_set_phones; [exact Hok|].
  apply Forall_app. split; [apply Hok|]. constructor; [exact Hp|constructor].
Qed.

Lemma remove_phone_keeps_ok (phone : string) (self : Record_) :
  record_ok self -> record_ok (snd (remove_phone phone self)).
Proof.
  intros Hok. unfold remove_phone, bind, get, lift, put, find_phone.
  destruct (find_phone_in phone (phones self)) as [p|]; [|exact Hok].
  destruct (list_remove Phone_eqb p (phones self)) as [l|] eqn:E;
    [|exact Hok].
  cbn [snd]. apply record_ok_set_phones; [exact Hok|].
  apply Forall_forall. intros q Hq.
  destruct Hok as [Hp _]. rewrite Forall_forall in Hp. apply Hp.
  eapply list_remove_incl; eassumption.
Qed.

Lemma edit_phone_keeps_ok (old_phone new_phone : string) (self : Record_) :
  record_ok self -> record_ok (snd (edit_phone old_phone new_phone self)).
Proof.
  intros Hok. unfold edit_phone, bind at 1, get, find_phone.
  destruct (find_phone_in old_phone (phones self)) as [p|]; [|exact Hok].
  unfold bind.
  pose proof (add_phone_keeps_ok new_phone self Hok) as H1.
  destruct (add_phone new_phone self) as [[[]|e] self1]; cbn [snd] in *;
    [|exact H1].
  apply remove_phone_keeps_ok. exact H1.
Qed.

Lemma add_birthday_keeps_ok (value : string) (self : Record_) :
  record_ok self -> record_ok (snd (add_birthday value self)).
Proof.
  intros Hok. destruct (accepted_birthday_dec value) as [H|H].
  - unfold add_birthday, bind, lift, get, put.
    rewrite (Birthday_init_accepted _ H). cbn.
    split; [apply Hok|]. intros b [= <-]. exact H.
  - unfold add_birthday, bind, lift, get, put.
    rewrite (Birthday_init_rejected _ H). exact Hok.
Qed.

(** X6. A record made by [Record] is valid, and every method of a record keeps
    it valid, whether it returns or raises: each phone is ten digits and the
    birthday, when there is one, is a value [Birthday] takes. *)
Theorem record_stays_valid (self : Record_) :
  (forall n r, Record_init n = Return r -> record_ok r)
  /\ (record_ok self ->
      (forall phone, record_ok (snd (add_phone phone self)))
      /\ (forall phone, record_ok (snd (remove_phone phone self)))
      /\ (forall old_phone new_phone,
             record_ok (snd (edit_phone old_phone new_phone self)))
      /\ (forall value, record_ok (snd (add_birthday value self)))).
Proof.
  split.
  - intros n r [= <-]. split; [constructor|discriminate].
  - intros Hok. split; [|split; [|split]]; intros.
    + now apply add_phone_keeps_ok.
    + now apply remove_phone_keeps_ok.
    + now apply edit_phone_keeps_ok.
    + now apply add_birthday_keeps_ok.
Qed.

Lemma record_two_phones_ok : record_ok record_two_phones.
Proof.
  split.
  - repeat constructor.
  - discriminate.
Qed.

Lemma record_stays_valid_witness :
  record_ok (snd (edit_phone "1111111111" "3333333333" record_two_phones))
  /\ record_ok (snd (add_birthday "31.04.2020" record_two_phones)).
Proof.
  destruct (proj2 (record_stays_valid record_two_phones))
    as [_ [_ [He Hb]]].
  - split; [repeat constructor|discriminate].
  - split; [apply He|apply Hb].
Defined.

(* ------------------------------------------------------------------ *)
(** * Further properties of the address book *)

Lemma dict_get_setitem_same {V : Type} (k : string) (v : V) (d : dict V) :
  dict_get k (dict_setitem k v d) = Some v.
Proof.
  induction d as [|[k' v'] d IH]; simpl.
  - now rewrite String.eqb_refl.
  - destruct (String.eqb k' k) eqn:E; simpl.
    + now rewrite String.eqb_refl.
    + now rewrite E.
Qed.

Lemma dict_get_setitem_other {V : Type} (k other : string) (v : V) (d : dict V) :
  other <> k -> dict_get other (dict_setitem k v d) = dict_get other d.
Proof.
  intros Hne. induction d as [|[k' v'] d IH]; simpl.
  - destruct (String.eqb_spec k other) as [E|_]; [congruence|reflexivity].
  - destruct (String.eqb_spec k' k) as [->|N]; simpl.
    + destruct (String.eqb_spec k other) as [E|_]; [congruence|reflexivity].
    + now rewrite IH.
Qed.

Lemma dict_get_None {V : Type} (k : string) (d : dict V) :
  dict_get k d = None <-> ~ In k (dict_keys d).
Proof.
  induction d as [|[k' v'] d IH]; simpl; [tauto|].
  destruct (String.eqb_spec k' k) as [->|N].
  - split; [discriminate|]. intros H. exfalso. apply H. now left.
  - rewrite IH. tauto.
Qed.

Lemma dict_get_In {V : Type} (k : string) (v : V) (d : dict V) :
  dict_get k d = Some v -> In (k, v) d.
Proof.
  induction d as [|[k' v'] d IH]; simpl; [discriminate|].
  destruct (String.eqb_spec k' k) as [->|N].
  - intros [= ->]. now left.
  - intros H. right. now apply IH.
Qed.

Lemma dict_setitem_absent {V : Type} (k : string) (v : V) (d : dict V) :
  dict_get k d = None -> dict_setitem k v d = (d ++ [(k, v)])%list.
Proof.
  induction d as [|[k' v'] d IH]; simpl; [reflexivity|].
  destruct (String.eqb k' k); [discriminate|]. intros H. now rewrite IH.
Qed.

Lemma dict_keys_setitem_present {V : Type} (k : string) (v : V) (d : dict V) :
  dict_get k d <> None -> dict_keys (dict_setitem k v d) = dict_keys d.
Proof.
  unfold dict_keys.
  induction d as [|[k' v'] d IH]; simpl; [congruence|].
  destruct (String.eqb_spec k' k) as [->|N]; simpl; [reflexivity|].
  intros H. f_equal. now apply IH.
Qed.

Lemma dict_setitem_In {V : Type} (k k' : string) (v v' : V) (d : dict V) :
  In (k', v') (dict_setitem k v d) -> (k' = k /\ v' = v) \/ In (k', v') d.
Proof.
  induction d as [|[k0 v0] d IH]; simpl.
  - intros [[= <- <-]|[]]. now left.
  - destruct (String.eqb k0 k); simpl.
    + intros [[= <- <-]|H]; [now left|right; now right].
    + intros [H|H]; [right; now left|].
      destruct (IH H) as [?|?]; [now left|right; now right].
Qed.

Lemma dict_delitem_absent {V : Type} (k : string) (d : dict V) :
  dict_get k d = None -> dict_delitem k d = d.
Proof.
  unfold dict_delitem.
  induction d as [|[k' v'] d IH]; simpl; [reflexivity|].
  destruct (String.eqb k' k); [discriminate|]. simpl. intros H.
  f_equal. now apply IH.
Qed.

Lemma dict_keys_delitem {V : Type} (k : string) (d : dict V) :
  dict_keys (dict_delitem k d)
  = filter (fun k' => negb (String.eqb k' k)) (dict_keys d).
Proof.
  unfold dict_keys, dict_delitem.
  induction d as [|[k' v'] d IH]; simpl; [reflexivity|].
  destruct (String.eqb k' k); simpl; [exact IH|].
  f_equal. exact IH.
Qed.

(** X7. After [add_record] the name of the record finds the record, and every
    other name finds what it found before. *)
Theorem add_record_find (self : AddressBook) (record : Record_) :
  exists self',
    add_record record self = (Return tt, self')
    /\ find (record_key record) self' = Some record
    /\ (forall other, other <> record_key record ->
                      find other self' = find other self).
Proof.
  eexists. split; [reflexivity|]. unfold find. simpl. split.
  - apply dict_get_setitem_same.
  - intros other Hne. now apply dict_get_setitem_other.
Qed.

Lemma add_record_find_witness :
  exists self',
    add_record (record_with_birthday "Ann" "1.1.2000")
               (book_of [record_two_phones; record_with_birthday "Bob" "01.06.1990"])
    = (Return tt, self')
    /\ find "Ann" self' = Some (record_with_birthday "Ann" "1.1.2000")
    /\ find "Bob" self' = Some (record_with_birthday "Bob" "01.06.1990").
Proof.
  destruct (add_record_find
              (book_of [record_two_phones; record_with_birthday "Bob" "01.06.1990"])
              (record_with_birthday "Ann" "1.1.2000"))
    as [self' [H1 [H2 H3]]].
  exists self'. split; [exact H1|]. split; [exact H2|].
  rewrite (H3 "Bob"); [reflexivity|discriminate].
Defined.

Lemma dict_setitem_present {V : Type} (k : string) (v old : V) (d : dict V) :
  dict_get k d = Some old ->
  exists before after,
    d = (before ++ (k, old) :: after)%list
    /\ ~ In k (dict_keys before)
    /\ dict_setitem k v d = (before ++ (k, v) :: after)%list.
Proof.
  induction d as [|[k' v'] d IH]; simpl; [discriminate|].
  destruct (String.eqb_spec k' k) as [->|N].
  - intros [= ->]. exists [], d. simpl. auto.
  - intros H. destruct (IH H) as [before [after [E [Hn Es]]]].
    exists ((k', v') :: before), after. simpl. rewrite <- E, Es.
    split; [reflexivity|]. split; [|reflexivity].
    intros [Hk|Hk]; [contradiction|exact (Hn Hk)].
Qed.

(** X8. [add_record] under a name the book has puts the record in the place of
    the old one: the entry of that name, which is the first and only one of
    the records before it to have the name, now holds the new record, and
    the records before and after it, and so the order of the names, are as
    they were. Under a new name it puts the record last. *)
Theorem add_record_position (self : AddressBook) (record : Record_) :
  (forall old,
      find (record_key record) self = Some old ->
      exists before after,
        data self = (before ++ (record_key record, old) :: after)%list
        /\ ~ In (record_key record) (dict_keys before)
        /\ data (snd (add_record record self))
           = (before ++ (record_key record, record) :: after)%list
        /\ dict_keys (data (snd (add_record record self)))
           = dict_keys (data self))
  /\ (find (record_key record) self = None ->
      data (snd (add_record record self))
      = (data self ++ [(record_key record, record)])%list).
Proof.
  unfold find. simpl. split.
  - intros old H.
    destruct (dict_setitem_present _ record _ _ H) as [before [after [E [Hn Es]]]].
    exists before, after. unfold record_key in *.
    split; [exact E|]. split; [exact Hn|]. split; [exact Es|].
    apply dict_keys_setitem_present. congruence.
  - intros H. now apply dict_setitem_absent.
Qed.

Lemma add_record_position_witness :
  data (snd (add_record
               (record_with_birthday "Ann" "1.1.2000")
               (book_of [record_two_phones;
                         record_with_birthday "Bob" "01.06.1990"])))
  = [("Ann", record_with_birthday "Ann" "1.1.2000");
     ("Bob", record_with_birthday "Bob" "01.06.1990")]
  /\ data (snd (add_record (record_with_birthday "Eve" "1.1.2000")
                           (book_of [record_two_phones])))
     = [("Ann", record_two_phones);
        ("Eve", record_with_birthday "Eve" "1.1.2000")].
Proof.
  split.
  - destruct (proj1 (add_record_position
                       (book_of [record_two_phones;
                                 record_with_birthday "Bob" "01.06.1990"])
                       (record_with_birthday "Ann" "1.1.2000"))
                    record_two_phones eq_refl)
      as [before [after [E [Hn [Es _]]]]].
    rewrite Es. destruct before as [|[k v] before].
    + simpl in E. injection E as <-. reflexivity.
    + simpl in E. injection E as <- _ _. exfalso. apply Hn. now left.
  - rewrite (proj2 (add_record_position
                      (book_of [record_two_phones])
                      (record_with_birthday "Eve" "1.1.2000")));
      reflexivity.
Defined.

(** X9. Adding a record under a name the book does not have and deleting that
    name again gives the book back. *)
Theorem add_record_then_delete (self : AddressBook) (record : Record_) :
  find (record_key record) self = None ->
  (add_record record ;; delete (record_key record)) self = (Return tt, self).
Proof.
  unfold find. intros H.
  unfold record_key in *.
  unfold add_record, delete, dict_contains, bind, get, put. simpl.
  rewrite dict_get_setitem_same. f_equal.
  rewrite (dict_setitem_absent _ _ _ H).
  unfold dict_delitem. rewrite filter_app. simpl.
  rewrite String.eqb_refl. simpl. rewrite app_nil_r.
  fold (dict_delitem (name_value (name record)) (data self)).
  rewrite (dict_delitem_absent _ _ H). destruct self. reflexivity.
Qed.

Lemma add_record_then_delete_witness :
  (add_record (record_with_birthday "Eve" "1.1.2000") ;; delete "Eve")
    (book_of [record_two_phones])
  = (Return tt, book_of [record_two_phones]).
Proof.
  apply (add_record_then_delete (book_of [record_two_phones])
                                (record_with_birthday "Eve" "1.1.2000")).
  reflexivity.
Defined.

(** *** The book stays valid *)

Lemma NoDup_snoc {A : Type} (l : list A) (x : A) :
  NoDup l -> ~ In x l -> NoDup (l ++ [x]).
Proof.
  induction l as [|y l IH]; simpl; intros Hl Hx.
  - constructor; [tauto|constructor].
  - inversion Hl as [|? ? Hy Hl']; subst. constructor.
    + rewrite in_app_iff. simpl. intros [H|[H|[]]]; [contradiction|].
      apply Hx. now left.
    + apply IH; [exact Hl'|]. intros H. apply Hx. now right.
Qed.

Lemma book_ok_setitem (b : AddressBook) (k : string) (r : Record_) :
  book_ok b -> record_key r = k -> record_ok r ->
  book_ok (mkAddressBook (dict_setitem k r (data b))).
Proof.
  intros [Hnd Hall] Hk Hr. split; simpl.
  - destruct (dict_get k (data b)) as [v|] eqn:E.
    + rewrite dict_keys_setitem_present; [exact Hnd|congruence].
    + rewrite (dict_setitem_absent _ _ _ E). unfold dict_keys.
      rewrite map_app. simpl. apply NoDup_snoc; [exact Hnd|].
      now apply dict_get_None.
  - intros k' r' H. apply dict_setitem_In in H.
    destruct H as [[-> ->]|H]; [split; assumption|now apply Hall].
Qed.

Lemma book_ok_delitem (b : AddressBook) (k : string) :
  book_ok b -> book_ok (mkAddressBook (dict_delitem k (data b))).
Proof.
  intros [Hnd Hall]. split; simpl.
  - rewrite dict_keys_delitem. now apply NoDup_filter.
  - intros k' r' H. unfold dict_delitem in H. apply filter_In in H.
    apply Hall. apply H.
Qed.

Lemma add_record_keeps_ok (record : Record_) (self : AddressBook) :
  book_ok self -> record_ok record -> book_ok (snd (add_record record self)).
Proof. intros Hb Hr. now apply book_ok_setitem. Qed.

Lemma delete_keeps_ok (name : string) (self : AddressBook) :
  book_ok self -> book_ok (snd (delete name self)).
Proof.
  intros Hb. unfold delete, bind, get, put, raise.
  destruct (dict_contains name (data self)); simpl; [|exact Hb].
  now apply book_ok_delitem.
Qed.

(** X10. The empty book is valid, and [add_record] of a valid record and
    [delete], whether it returns or raises, keep a book valid: no name
    twice, every record under its own name, every record valid. *)
Theorem book_stays_valid (self : AddressBook) :
  book_ok AddressBook_init
  /\ (book_ok self ->
      (forall record, record_ok record ->
                      book_ok (snd (add_record record self)))
      /\ (forall name, book_ok (snd (delete name self)))).
Proof.
  split.
  - split; simpl; [constructor|intros k r []].
  - intros Hb. split; intros.
    + now apply add_record_keeps_ok.
    + now apply delete_keeps_ok.
Qed.

Lemma book_stays_valid_witness :
  book_ok (snd (add_record record_two_phones AddressBook_init))
  /\ book_ok (snd (delete "Ann" AddressBook_init)).
Proof.
  destruct (book_stays_valid AddressBook_init) as [H0 H].
  destruct (H H0) as [Ha Hd]. split.
  - apply Ha. split; [repeat constructor|discriminate].
  - apply Hd.
Defined.

(** *** The list of upcoming birthdays *)

Lemma upcoming_step_acc (today next_week : datetime) (record : Record_)
      (birthdays : list entry) :
  upcoming_step today next_week record birthdays
  = (l <-- upcoming_step today next_week record [] ;;
     Return (birthdays ++ l)%list).
Proof.
  unfold upcoming_step. destruct (birthday record) as [b|]; simpl.
  - destruct (strptime (birthday_value b)) as [d|]; simpl; [|reflexivity].
    destruct (replace_year d (year today)) as [occ|]; simpl; [|reflexivity].
    destruct (datetime_le today occ && datetime_le occ next_week); simpl.
    + reflexivity.
    + now rewrite app_nil_r.
  - now rewrite app_nil_r.
Qed.

Lemma upcoming_loop_acc (today next_week : datetime) (records : list Record_) :
  forall birthdays,
    upcoming_loop today next_week records birthdays
    = (l <-- upcoming_loop today next_week records [] ;;
       Return (birthdays ++ l)%list).
Proof.
  induction records as [|r records IH]; intros birthdays; simpl.
  - now rewrite app_nil_r.
  - rewrite (upcoming_step_acc today next_week r birthdays).
    destruct (upcoming_step today next_week r []) as [l1|]; simpl;
      [|reflexivity].
    rewrite (IH (birthdays ++ l1)%list), (IH l1).
    destruct (upcoming_loop today next_week records []) as [l2|]; simpl;
      [|reflexivity].
    now rewrite app_assoc.
Qed.

(** X11. The list for a book is the list for its first records followed by the
    list for the rest, so the entries come in the order of the book; when a
    record makes the call raise, the first such record of the book decides
    the exception. *)
Theorem get_upcoming_birthdays_app (today : datetime) (d1 d2 : dict Record_) :
  get_upcoming_birthdays today (mkAddressBook (d1 ++ d2)%list)
  = (l1 <-- get_upcoming_birthdays today (mkAddressBook d1) ;;
     l2 <-- get_upcoming_birthdays today (mkAddressBook d2) ;;
     Return (l1 ++ l2)%list).
Proof.
  unfold get_upcoming_birthdays. simpl data.
  destruct (datetime_add today (timedelta_new 7 0 0 0 0)) as [nw|]; simpl;
    [|reflexivity].
  rewrite dict_values_app, upcoming_loop_app.
  destruct (upcoming_loop today nw (dict_values d1) []) as [l1|]; simpl;
    [|reflexivity].
  apply upcoming_loop_acc.
Qed.

Lemma upcoming_step_In (today next_week : datetime) (record : Record_)
      (l : list entry) :
  upcoming_step today next_week record [] = Return l ->
  forall e, In e l <-> upcoming_at today next_week record e.
Proof.
  unfold upcoming_step, upcoming_at. intros H e.
  destruct (birthday record) as [b|].
  - destruct (strptime (birthday_value b)) as [d|] eqn:Hs; simpl in H;
      [|discriminate].
    destruct (replace_year d (year today)) as [occ|] eqn:Hr; simpl in H;
      [|discriminate].
    destruct (datetime_le today occ && datetime_le occ next_week) eqn:E;
      injection H as <-; simpl.
    + apply andb_true_iff in E. split.
      * intros [<-|[]]. destruct E as [E1 E2].
        exists b, d, occ. repeat split; assumption.
      * intros [b' [d' [occ' [Hb [Hs' [Hr' [_ [_ ->]]]]]]]].
        injection Hb as <-. rewrite Hs in Hs'. injection Hs' as <-.
        rewrite Hr in Hr'. injection Hr' as <-. now left.
    + split; [tauto|].
      intros [b' [d' [occ' [Hb [Hs' [Hr' [L1 [L2 _]]]]]]]].
      injection Hb as <-. rewrite Hs in Hs'. injection Hs' as <-.
      rewrite Hr in Hr'. injection Hr' as <-.
      rewrite L1, L2 in E. discriminate E.
  - injection H as <-. simpl. split; [tauto|].
    intros [b [d [occ [Hb _]]]]. discriminate Hb.
Qed.

Lemma upcoming_loop_In (today next_week : datetime) (records : list Record_) :
  forall l,
    upcoming_loop today next_week records [] = Return l ->
    forall e, In e l
              <-> exists r, In r records /\ upcoming_at today next_week r e.
Proof.
  induction records as [|r records IH]; simpl; intros l H e.
  - injection H as <-. simpl. split; [tauto|]. intros [r [[] _]].
  - destruct (upcoming_step today next_week r []) as [l1|] eqn:E1;
      simpl in H; [|discriminate].
    rewrite upcoming_loop_acc in H.
    destruct (upcoming_loop today next_week records []) as [l2|] eqn:E2;
      simpl in H; [|discriminate].
    injection H as <-. rewrite in_app_iff.
    rewrite (upcoming_step_In _ _ _ _ E1 e), (IH l2 eq_refl e). split.
    + intros [H|[r' [Hr H]]]; [exists r; auto|exists r'; auto].
    + intros [r' [[<-|Hr] H]]; [now left|right; now exists r'].
Qed.

(** X12. What the returned list holds: an entry is in it exactly when it is the
    entry of a record of the book that has a birthday whose day, put into
    the year of [today], is from [today] to [today + 7 days] as the clock
    has them; the entry carries the name of that record and that day. *)
Theorem get_upcoming_birthdays_In
        (today : datetime) (self : AddressBook) (l : list entry) :
  get_upcoming_birthdays today self = Return l ->
  exists next_week,
    datetime_add today (timedelta_new 7 0 0 0 0) = Return next_week
    /\ forall e,
        In e l
        <-> exists key record,
            In (key, record) (data self)
            /\ upcoming_at today next_week record e.
Proof.
  unfold get_upcoming_birthdays.
  destruct (datetime_add today (timedelta_new 7 0 0 0 0)) as [nw|]; simpl;
    [|discriminate].
  intros H. exists nw. split; [reflexivity|]. intros e.
  rewrite (upcoming_loop_In _ _ _ _ H e). unfold dict_values. split.
  - intros [r [Hr Hu]]. apply in_map_iff in Hr.
    destruct Hr as [[k r'] [<- Hin]]. now exists k, r'.
  - intros [k [r [Hin Hu]]]. exists r. split; [|exact Hu].
    change r with (snd (k, r)). now apply in_map.
Qed.

Lemma get_upcoming_birthdays_In_witness :
  In (mkentry "Dan" "08.06.2024")
     [mkentry "Cat" "02.06.2024"; mkentry "Dan" "08.06.2024"]
  <-> exists key record,
      In (key, record)
         (data (book_of [record_with_birthday "Bob" "01.06.1990";
                         record_with_birthday "Cat" "02.06.1990";
                         record_with_birthday "Dan" "08.06.1990"]))
      /\ upcoming_at (mkdatetime 2024 6 1 12 0 0 0)
                     (mkdatetime 2024 6 8 12 0 0 0) record
                     (mkentry "Dan" "08.06.2024").
Proof.
  destruct (get_upcoming_birthdays_In
              (mkdatetime 2024 6 1 12 0 0 0)
              (book_of [record_with_birthday "Bob" "01.06.1990";
                        record_with_birthday "Cat" "02.06.1990";
                        record_with_birthday "Dan" "08.06.1990"])
              [mkentry "Cat" "02.06.2024"; mkentry "Dan" "08.06.2024"]
              eq_refl) as [nw [Hnw H]].
  vm_compute in Hnw. injection Hnw as <-. apply H.
Defined.

(** *** Seven days later *)

Lemma timedelta_normalised (d s us : Z) :
  0 <= s < 86400 -> 0 <= us < 1000000 ->
  timedelta_of_microseconds ((d * 86400 + s) * 1000000 + us)
  = mktimedelta d s us.
Proof.
  intros Hs Hus. unfold timedelta_of_microseconds.
  assert (E1 : ((d * 86400 + s) * 1000000 + us) / 1000000 = d * 86400 + s).
  { symmetry. apply Z.div_unique with (r := us); lia. }
  assert (E2 : ((d * 86400 + s) * 1000000 + us) mod 1000000 = us).
  { symmetry. apply Z.mod_unique with (q := d * 86400 + s); lia. }
  assert (E3 : (d * 86400 + s) / 86400 = d).
  { symmetry. apply Z.div_unique with (r := s); lia. }
  assert (E4 : (d * 86400 + s) mod 86400 = s).
  { symmetry. apply Z.mod_unique with (q := d); lia. }
  rewrite E1, E2, E3, E4. reflexivity.
Qed.

(** Adding whole days to a datetime keeps its clock time and moves its day
    by that many days, and raises OverflowError outside the years 1 to
    9999. *)
Lemma datetime_add_days (t : datetime) (n : Z) :
  0 <= hour t <= 23 -> 0 <= minute t <= 59 -> 0 <= second t <= 59 ->
  0 <= microsecond t <= 999999 ->
  datetime_add t (timedelta_new n 0 0 0 0)
  = if (0 <? toordinal t + n) && (toordinal t + n <=? _MAXORDINAL)
    then let '(y, m, d) := _ord2ymd (toordinal t + n) in
         Return (mkdatetime y m d (hour t) (minute t) (second t)
                            (microsecond t))
    else Raise (OverflowError DateValueOutOfRange).
Proof.
  intros Hh Hm Hs Hu. unfold datetime_add, timedelta_add, timedelta_new.
  set (S := hour t * 3600 + minute t * 60 + second t).
  assert (HS : 0 <= S < 86400) by (unfold S; lia).
  replace ((((toordinal t * 24 + hour t) * 60 + minute t) * 60 + second t)
           * 1000000 + microsecond t)
    with ((toordinal t * 86400 + S) * 1000000 + microsecond t)
    by (unfold S; ring).
  replace ((((n * 24 + 0) * 60 + 0) * 60 + 0) * 1000000 + 0)
    with ((n * 86400 + 0) * 1000000 + 0) by ring.
  rewrite !timedelta_normalised by lia.
  unfold total_microseconds. cbn [days seconds microseconds].
  replace ((toordinal t * 86400 + S) * 1000000 + microsecond t
           + ((n * 86400 + 0) * 1000000 + 0))
    with (((toordinal t + n) * 86400 + S) * 1000000 + microsecond t) by ring.
  rewrite timedelta_normalised by lia.
  cbn [days seconds microseconds].
  assert (E1 : S / 3600 = hour t).
  { symmetry. apply Z.div_unique with (r := minute t * 60 + second t);
      unfold S; lia. }
  assert (E2 : S mod 3600 = minute t * 60 + second t).
  { symmetry. apply Z.mod_unique with (q := hour t); unfold S; lia. }
  assert (E3 : (minute t * 60 + second t) / 60 = minute t).
  { symmetry. apply Z.div_unique with (r := second t); lia. }
  assert (E4 : (minute t * 60 + second t) mod 60 = second t).
  { symmetry. apply Z.mod_unique with (q := minute t); lia. }
  rewrite E1, E2, E3, E4. reflexivity.
Qed.

(** The entries of the tables and the tests on the month, once the month
    is known. *)
Ltac eval_month :=
  repeat match goal with
         | |- context [table ?T ?k] =>
             let v := eval vm_compute in (table T k) in
             progress change (table T k) with v
         | |- context [?a <? ?b] =>
             let v := eval vm_compute in (a <? b) in
             progress change (a <? b) with v
         | |- context [?a =? ?b] =>
             let v := eval vm_compute in (a =? b) in
             progress change (a =? b) with v
         end;
  cbn [andb orb].

Lemma _days_before_month_bounds (y m d : Z) :
  1 <= m <= 12 -> 1 <= d <= month_length y m ->
  1 <= _days_before_month y m + d <= 366
  /\ (m < 12 -> _days_before_month y m + d <= 335).
Proof.
  intros Hm Hd. revert Hd. unfold _days_before_month, month_length.
  rewrite leap_year_is_leap.
  enum_from m 1 12%nat; eval_month; destruct (_is_leap y); lia.
Qed.

Lemma toordinal_bounds (t : datetime) :
  real_date (year t) (month t) (day t) ->
  (year t < 9999 \/ month t < 12 \/ day t < 25) ->
  0 < toordinal t + 7 <= _MAXORDINAL.
Proof.
  intros [Hy [Hm Hd]] Hbefore. unfold toordinal, _ymd2ord, _MAXORDINAL.
  destruct (_days_before_month_bounds _ _ _ Hm Hd) as [Hb Hb'].
  unfold _days_before_year.
  destruct (Z.eq_dec (year t) 9999) as [E|N].
  - rewrite E in *.
    change ((9999 - 1) * 365 + (9999 - 1) / 4
            - (9999 - 1) / 100 + (9999 - 1) / 400) with 3651694.
    destruct (Z.eq_dec (month t) 12) as [E12|N12].
    + rewrite E12 in *.
      change (_days_before_month 9999 12) with 334 in *. lia.
    + assert (H11 : month t < 12) by lia. specialize (Hb' H11). lia.
  - Z.div_mod_to_equations. lia.
Qed.

(** X13. In the last week of the year 9999, [today + 7 days] is past the last
    day that a datetime can hold, and [get_upcoming_birthdays] raises
    OverflowError whatever the book, the empty one included. *)
Theorem get_upcoming_birthdays_overflow (today : datetime) (self : AddressBook) :
  datetime_ok today ->
  year today = 9999 -> month today = 12 -> 25 <= day today ->
  get_upcoming_birthdays today self = Raise (OverflowError DateValueOutOfRange).
Proof.
  intros [_ [Hh [Hm [Hs Hu]]]] Ey Em Ed. unfold get_upcoming_birthdays.
  rewrite datetime_add_days by assumption.
  assert (E : toordinal today = 3652028 + day today).
  { unfold toordinal, _ymd2ord. rewrite Ey, Em. reflexivity. }
  rewrite E. unfold _MAXORDINAL.
  destruct (Z.leb_spec (3652028 + day today + 7) 3652059) as [H|H]; [lia|].
  rewrite andb_false_r. reflexivity.
Qed.

Lemma get_upcoming_birthdays_overflow_witness :
  get_upcoming_birthdays (mkdatetime 9999 12 25 0 0 0 0) AddressBook_init
  = Raise (OverflowError DateValueOutOfRange).
Proof.
  apply get_upcoming_birthdays_overflow.
  - unfold datetime_ok, real_date. simpl. repeat split; try lia;
      vm_compute; congruence.
  - reflexivity.
  - reflexivity.
  - simpl. lia.
Defined.

(** *** When the call returns *)

Lemma month_length_other_year (y y' m d : Z) :
  1 <= d <= month_length y m ->
  leap_year y' = true \/ ~ (m = 2 /\ d = 29) ->
  1 <= d <= month_length y' m.
Proof.
  unfold month_length.
  destruct ((m =? 4) || (m =? 6) || (m =? 9) || (m =? 11)); [tauto|].
  destruct (Z.eqb_spec m 2) as [->|_]; [|tauto].
  intros Hd [-> | H]; [destruct (leap_year y); lia|].
  destruct (leap_year y), (leap_year y'); lia.
Qed.

Lemma replace_year_accepted (value : string) (bday_date : datetime) (y' : Z) :
  strptime value = Return bday_date ->
  1 <= y' <= 9999 ->
  _is_leap y' = true \/ ~ leap_day bday_date ->
  exists bday_this_year, replace_year bday_date y' = Return bday_this_year.
Proof.
  intros Hs Hy Hleap.
  destruct (strptime_returns _ _ Hs) as [y [m [d [dt [mt [R [Td [Tm E]]]]]]]].
  rewrite E, (strptime_accepted y m d dt mt R Td Tm) in Hs.
  injection Hs as <-. unfold replace_year, datetime_new. simpl.
  destruct R as [_ [Hm Hd]].
  assert (R' : real_date y' m d).
  { split; [exact Hy|]. split; [exact Hm|].
    apply month_length_other_year with (y := y); [exact Hd|].
    rewrite leap_year_is_leap. exact Hleap. }
  apply _check_date_fields_ok in R'. rewrite R'. simpl. eauto.
Qed.

Lemma upcoming_loop_returns (today next_week : datetime)
      (records : list Record_) :
  (forall r, In r records ->
             forall birthdays, exists l,
               upcoming_step today next_week r birthdays = Return l) ->
  forall birthdays, exists l,
    upcoming_loop today next_week records birthdays = Return l.
Proof.
  induction records as [|r records IH]; intros Hall birthdays; simpl.
  - eauto.
  - destruct (Hall r (or_introl eq_refl) birthdays) as [l1 ->]. simpl.
    apply IH. intros r' Hr'. apply Hall. now right.
Qed.

(** X14. [get_upcoming_birthdays] returns for every book whose birthdays are
    values [Birthday] takes, at every [today] before 25 December 9999,
    provided the year of [today] is a leap year or no birthday of the book
    is a 29th of February. *)
Theorem get_upcoming_birthdays_returns (today : datetime) (self : AddressBook) :
  datetime_ok today ->
  (year today < 9999 \/ month today < 12 \/ day today < 25) ->
  (forall key record b,
      In (key, record) (data self) -> birthday record = Some b ->
      accepted_birthday (birthday_value b)) ->
  (_is_leap (year today) = true
   \/ forall key record b bday_date,
      In (key, record) (data self) -> birthday record = Some b ->
      strptime (birthday_value b) = Return bday_date ->
      ~ leap_day bday_date) ->
  exists l, get_upcoming_birthdays today self = Return l.
Proof.
  intros [Hdate [Hh [Hm [Hs Hu]]]] Hbefore Hacc Hleap.
  unfold get_upcoming_birthdays. rewrite datetime_add_days by assumption.
  destruct (toordinal_bounds today Hdate Hbefore) as [H0 Hmax].
  apply Z.ltb_lt in H0. apply Z.leb_le in Hmax. rewrite H0, Hmax. simpl.
  destruct (_ord2ymd (toordinal today + 7)) as [[y m] d]. simpl.
  apply upcoming_loop_returns. intros r Hr birthdays.
  unfold dict_values in Hr. apply in_map_iff in Hr.
  destruct Hr as [[k r'] [E Hin]]. simpl in E. subst r'.
  unfold upcoming_step. destruct (birthday r) as [b|] eqn:Hb; [|eauto].
  pose proof (Hacc k r b Hin Hb) as Ha.
  destruct Ha as [y0 [m0 [d0 [dt [mt [R [Td [Tm E]]]]]]]].
  pose proof (strptime_accepted y0 m0 d0 dt mt R Td Tm) as Hs'.
  rewrite <- E in Hs'. rewrite Hs'. simpl.
  destruct (replace_year_accepted _ _ (year today) Hs') as [occ ->].
  - apply Hdate.
  - destruct Hleap as [Hl|Hl]; [now left|right].
    eapply Hl; eassumption.
  - simpl. destruct (_ && _); eauto.
Qed.

Lemma get_upcoming_birthdays_returns_witness :
  exists l,
    get_upcoming_birthdays (mkdatetime 2024 6 1 12 0 0 0)
      (book_of [record_two_phones; record_with_birthday "Bob" "29.02.2000"])
    = Return l.
Proof.
  apply get_upcoming_birthdays_returns.
  - unfold datetime_ok, real_date. simpl. repeat split; try lia;
      vm_compute; congruence.
  - left. simpl. lia.
  - intros key record b [H|[H|[]]] Hb; injection H as <- <-;
      [discriminate Hb|].
    injection Hb as <-. exists 2000, 2, 29, "29", "02".
    repeat split; try (vm_compute; congruence); now left.
  - left. reflexivity.
Defined.

(* ------------------------------------------------------------------ *)
(** * Words *)

Lemma split_from_word (w : string) :
  str_all (fun c => negb (char_isspace c)) w = true ->
  forall cur s, split_from cur (w ++ s) = split_from (cur ++ w) s.
Proof.
  induction w as [|c w IH]; simpl; intros Hw cur s.
  - now rewrite append_nil_r.
  - apply andb_true_iff in Hw. destruct Hw as [Hc Hw].
    apply negb_true_iff in Hc. rewrite Hc.
    rewrite (IH Hw). rewrite append_assoc. reflexivity.
Qed.

Lemma split_from_space (cur s : string) :
  cur <> "" -> split_from cur (" " ++ s) = cur :: split_from "" s.
Proof.
  intros H. simpl. destruct (String.eqb_spec cur ""); [contradiction|].
  reflexivity.
Qed.

(** Splitting words joined by single spaces gives the words back. *)
Lemma str_split_join (words : list string) :
  Forall is_word words -> str_split (str_join " " words) = words.
Proof.
  unfold str_split. induction words as [|w words IH]; intros H.
  - reflexivity.
  - inversion H as [|? ? [Hne Hw] H']; subst.
    destruct words as [|w' words].
    + simpl. rewrite <- (append_nil_r w) at 1.
      rewrite (split_from_word w Hw). simpl.
      destruct (String.eqb_spec w ""); [contradiction|reflexivity].
    + change (str_join " " (w :: w' :: words))
        with (w ++ " " ++ str_join " " (w' :: words)).
      rewrite (split_from_word w Hw). change ("" ++ w) with w.
      rewrite (split_from_space w _ Hne), (IH H'). reflexivity.
Qed.

Lemma phone_is_word (phone : string) :
  isdigit phone = true -> is_word phone.
Proof.
  unfold isdigit, is_word. destruct phone as [|c r]; [discriminate|].
  intros H. split; [discriminate|].
  revert H. generalize (String c r). clear. intros s.
  induction s as [|c s IH]; simpl; [reflexivity|].
  intros H. apply andb_true_iff in H. destruct H as [Hc Hs].
  rewrite (IH Hs), andb_true_r.
  unfold char_isdigit, is_decimal, in_range in Hc. unfold char_isspace.
  change (ord "0") with 48 in Hc. change (ord "9") with 57 in Hc.
  destruct (Z.leb_spec 9 (ord c)), (Z.leb_spec (ord c) 13),
    (Z.leb_spec 28 (ord c)), (Z.leb_spec (ord c) 32),
    (Z.eqb_spec (ord c) 133), (Z.eqb_spec (ord c) 160); simpl;
    try reflexivity; exfalso;
    repeat rewrite orb_true_iff in Hc; rewrite andb_true_iff in Hc;
    rewrite !Z.leb_le, !Z.eqb_eq in Hc; lia.
Qed.

(* ------------------------------------------------------------------ *)
(** * The commands of the assistant *)

Lemma dict_setitem_same_value {V : Type} (k : string) (v : V) (d : dict V) :
  dict_get k d = Some v -> dict_setitem k v d = d.
Proof.
  induction d as [|[k' v'] d IH]; simpl; [discriminate|].
  destruct (String.eqb_spec k' k) as [->|N].
  - now intros [= ->].
  - intros H. now rewrite IH.
Qed.

Lemma on_record_run {A : Type} (key : string) (record : Record_)
      (m : M Record_ A) (w : World) :
  on_record key record m w
  = (of_outcome (fst (m record)),
     set_book w (mkAddressBook
                   (dict_setitem key (snd (m record)) (data (book w))))).
Proof. unfold on_record. destruct (m record). reflexivity. Qed.

Lemma set_book_same (w : World) : set_book w (book w) = w.
Proof. destruct w. reflexivity. Qed.

Lemma isdigit_not_empty (s : string) : isdigit s = true -> (s =? "")%string = false.
Proof. destruct s; [discriminate|reflexivity]. Qed.

Lemma is_word_not_empty (s : string) : is_word s -> (s =? "")%string = false.
Proof. intros [H _]. destruct s; [contradiction|reflexivity]. Qed.

Lemma str_split_two (a b : string) :
  is_word a -> is_word b -> str_split (a ++ " " ++ b) = [a; b].
Proof.
  intros Ha Hb. apply (str_split_join [a; b]).
  constructor; [exact Ha|]. constructor; [exact Hb|]. constructor.
Qed.

Lemma str_split_three (a b c : string) :
  is_word a -> is_word b -> is_word c ->
  str_split (a ++ " " ++ b ++ " " ++ c) = [a; b; c].
Proof.
  intros Ha Hb Hc. apply (str_split_join [a; b; c]).
  constructor; [exact Ha|]. constructor; [exact Hb|].
  constructor; [exact Hc|]. constructor.
Qed.

(** X15. The command [add name phone] with a valid phone: afterwards the name
    finds a record whose phones are those it had before (none when the name
    is new) followed by the phone, every other name finds what it found, and
    the view shows "Contact added." for a new name and "Contact updated."
    for a known one. *)
Theorem add_contact_valid (w : World) (name phone : string) :
  is_word name -> isdigit phone = true -> len phone = 10 ->
  exists w',
    Assistant.add_contact (name ++ " " ++ phone) w = (Ok tt, w')
    /\ trace w'
       = (trace w
          ++ [Displayed match find name (book w) with
                        | None => "Contact added."
                        | Some _ => "Contact updated."
                        end])%list
    /\ (exists r',
           find name (book w') = Some r'
           /\ phone_values r'
              = (match find name (book w) with
                 | Some r => phone_values r
                 | None => []
                 end ++ [phone])%list)
    /\ (forall other, other <> name ->
                      find other (book w') = find other (book w)).
Proof.
  intros Hn Hd Hl. unfold Assistant.add_contact.
  rewrite (str_split_two _ _ Hn (phone_is_word _ Hd)).
  unfold iobind, book_find. rewrite (isdigit_not_empty _ Hd). cbn [negb].
  destruct (find name (book w)) as [r|] eqn:Hf.
  - cbn. rewrite on_record_run, (add_phone_valid _ _ Hd Hl). cbn.
    eexists. split; [reflexivity|]. cbn. split; [reflexivity|]. split.
    + eexists. unfold find. cbn. split; [apply dict_get_setitem_same|].
      unfold phone_values. cbn. now rewrite map_app.
    + intros other Hne. unfold find. cbn.
      now apply dict_get_setitem_other.
  - cbn. rewrite on_record_run, (add_phone_valid _ _ Hd Hl). cbn.
    eexists. split; [reflexivity|]. cbn. split; [reflexivity|]. split.
    + eexists. unfold find. cbn. split; [apply dict_get_setitem_same|].
      reflexivity.
    + intros other Hne. unfold find. cbn.
      rewrite !dict_get_setitem_other by assumption. reflexivity.
Qed.

Lemma add_contact_valid_witness :
  exists w',
    Assistant.add_contact "Ann 3333333333"
      (mkWorld (book_of [record_two_phones]) [] 0) = (Ok tt, w')
    /\ trace w' = [Displayed "Contact updated."]
    /\ exists r', find "Ann" (book w') = Some r'
                  /\ phone_values r'
                     = ["1111111111"; "2222222222"; "3333333333"].
Proof.
  destruct (add_contact_valid (mkWorld (book_of [record_two_phones]) [] 0)
                              "Ann" "3333333333")
    as [w' [H1 [H2 [[r' [H3 H4]] _]]]].
  - split; [discriminate|reflexivity].
  - reflexivity.
  - reflexivity.
  - exists w'. split; [exact H1|]. split; [exact H2|].
    exists r'. split; [exact H3|exact H4].
Defined.

(** X16. The command [add name phone] with a phone that is not valid raises the
    ValueError of the phone validation and shows nothing. For a known name
    the book stays as it is; for a new name the book has by then got a
    record of that name without phones, and keeps it. *)
Theorem add_contact_invalid_phone (w : World) (name phone : string) :
  is_word name -> is_word phone ->
  isdigit phone = false \/ len phone <> 10 ->
  exists w',
    Assistant.add_contact (name ++ " " ++ phone) w
    = (Throw (Exn (ValueError msg_phone_digits)), w')
    /\ trace w' = trace w
    /\ (find name (book w) <> None -> book w' = book w)
    /\ (find name (book w) = None ->
        data (book w')
        = (data (book w) ++ [(name, mkRecord (mkName name) [] None)])%list).
Proof.
  intros Hn Hp Hbad. unfold Assistant.add_contact.
  rewrite (str_split_two _ _ Hn Hp).
  unfold iobind, book_find. rewrite (is_word_not_empty _ Hp). cbn [negb].
  destruct (find name (book w)) as [r|] eqn:Hf.
  - cbn. rewrite on_record_run, (add_phone_invalid _ _ Hbad). cbn.
    eexists. split; [reflexivity|]. cbn. split; [reflexivity|]. split.
    + intros _. unfold find in Hf. rewrite (dict_setitem_same_value _ _ _ Hf).
      now destruct (book w).
    + discriminate.
  - cbn. rewrite on_record_run, (add_phone_invalid _ _ Hbad). cbn.
    eexists. split; [reflexivity|]. cbn. split; [reflexivity|]. split.
    + congruence.
    + intros _. unfold find in Hf.
      rewrite (dict_setitem_absent _ _ _ Hf).
      apply dict_setitem_same_value.
      rewrite <- (dict_setitem_absent _ _ _ Hf). apply dict_get_setitem_same.
Qed.

Lemma add_contact_invalid_phone_witness :
  exists w',
    Assistant.add_contact "Bob 12" (mkWorld (book_of [record_two_phones]) [] 0)
    = (Throw (Exn (ValueError msg_phone_digits)), w')
    /\ data (book w')
       = [("Ann", record_two_phones); ("Bob", mkRecord (mkName "Bob") [] None)].
Proof.
  destruct (add_contact_invalid_phone
              (mkWorld (book_of [record_two_phones]) [] 0) "Bob" "12")
    as [w' [H1 [_ [_ H2]]]].
  - split; [discriminate|reflexivity].
  - split; [discriminate|reflexivity].
  - right. discriminate.
  - exists w'. split; [exact H1|]. rewrite H2; reflexivity.
Defined.

(** X17. A command with too few or too many words after it raises the ValueError
    of the unpacking, before anything is looked up: the book and the view
    stay as they are. *)
Theorem handlers_arity (w : World) (args : string) :
  ((List.length (str_split args) < 2)%nat ->
   Assistant.add_contact args w
   = (Throw (not_enough_at_least 2 (str_split args)), w))
  /\ ((List.length (str_split args) < 3)%nat ->
      Assistant.change_contact args w
      = (Throw (not_enough 3 (str_split args)), w))
  /\ ((3 < List.length (str_split args))%nat ->
      Assistant.change_contact args w = (Throw (too_many 3), w))
  /\ ((List.length (str_split args) < 2)%nat ->
      Assistant.add_birthday args w
      = (Throw (not_enough 2 (str_split args)), w))
  /\ ((2 < List.length (str_split args))%nat ->
      Assistant.add_birthday args w = (Throw (too_many 2), w))
  /\ (str_split args = [] ->
      Assistant.show_phone args w = (Throw (not_enough_at_least 1 []), w)
      /\ Assistant.show_birthday args w
         = (Throw (not_enough_at_least 1 []), w)).
Proof.
  unfold Assistant.add_contact, Assistant.change_contact,
    Assistant.add_birthday, Assistant.show_phone, Assistant.show_birthday.
  destruct (str_split args) as [|a [|b [|c [|d l]]]]; simpl;
    repeat split; intros; simpl in *; try lia; try discriminate; reflexivity.
Qed.

Lemma handlers_arity_witness :
  Assistant.add_contact "Ann" (Assistant.init None)
  = (Throw (Exn (ValueError
                   (Text "not enough values to unpack (expected at least 2, got 1)"))),
     Assistant.init None)
  /\ Assistant.change_contact "Ann 1 2 3" (Assistant.init None)
     = (Throw (Exn (ValueError (Text "too many values to unpack (expected 3)"))),
        Assistant.init None).
Proof.
  split.
  - apply (proj1 (handlers_arity (Assistant.init None) "Ann")). simpl. lia.
  - apply (proj1 (proj2 (proj2 (handlers_arity (Assistant.init None)
                                               "Ann 1 2 3")))).
    simpl. lia.
Defined.

Lemma edit_phone_absent (self : Record_) (old_phone new_phone : string) :
  ~ In old_phone (phone_values self) ->
  edit_phone old_phone new_phone self
  = (Raise (ValueError msg_phone_not_found), self).
Proof.
  intros Hn. apply find_phone_in_None in Hn.
  unfold edit_phone, bind, get, find_phone. rewrite Hn. reflexivity.
Qed.

Lemma edit_phone_invalid_new (self : Record_) (old_phone new_phone : string) :
  In old_phone (phone_values self) ->
  isdigit new_phone = false \/ len new_phone <> 10 ->
  edit_phone old_phone new_phone self
  = (Raise (ValueError msg_phone_digits), self).
Proof.
  intros Hin Hbad. destruct (find_phone_in_Some _ _ Hin) as [p Hp].
  unfold edit_phone, bind at 1, get, find_phone. rewrite Hp.
  unfold bind. rewrite (add_phone_invalid _ _ Hbad). reflexivity.
Qed.

Lemma store_same (w : World) (key : string) (r : Record_) :
  find key (book w) = Some r ->
  set_book w (mkAddressBook (dict_setitem key r (data (book w)))) = w.
Proof.
  unfold find. intros H. rewrite (dict_setitem_same_value _ _ _ H).
  destruct w as [[d] tr n]. reflexivity.
Qed.

(** X18. The command [change name old new]. For a name the book does not have
    the view shows "Contact not found." and nothing else happens. For a
    known name whose record has [old], and a valid [new], the record gets
    its other phones in their order followed by [new], the other names are
    as before, and the view shows "Contact updated.". For a known name
    whose record does not have [old], or with a [new] that is not valid, the
    command raises the ValueError of [edit_phone] and leaves the book and
    the view as they are. *)
Theorem change_contact_spec (w : World) (name old_phone new_phone : string) :
  is_word name -> is_word old_phone -> is_word new_phone ->
  (find name (book w) = None ->
   Assistant.change_contact (name ++ " " ++ old_phone ++ " " ++ new_phone) w
   = (Ok tt, mkWorld (book w) (trace w ++ [Displayed "Contact not found."])
                     (ticks w)))
  /\ (forall r,
         find name (book w) = Some r ->
         In old_phone (phone_values r) ->
         isdigit new_phone = true -> len new_phone = 10 ->
         exists w' r',
           Assistant.change_contact
             (name ++ " " ++ old_phone ++ " " ++ new_phone) w = (Ok tt, w')
           /\ trace w' = (trace w ++ [Displayed "Contact updated."])%list
           /\ find name (book w') = Some r'
           /\ phone_values r'
              = (remove_first old_phone (phone_values r) ++ [new_phone])%list
           /\ forall other, other <> name ->
                            find other (book w') = find other (book w))
  /\ (forall r,
         find name (book w) = Some r ->
         ~ In old_phone (phone_values r) ->
         Assistant.change_contact
           (name ++ " " ++ old_phone ++ " " ++ new_phone) w
         = (Throw (Exn (ValueError msg_phone_not_found)), w))
  /\ (forall r,
         find name (book w) = Some r ->
         In old_phone (phone_values r) ->
         isdigit new_phone = false \/ len new_phone <> 10 ->
         Assistant.change_contact
           (name ++ " " ++ old_phone ++ " " ++ new_phone) w
         = (Throw (Exn (ValueError msg_phone_digits)), w)).
Proof.
  intros Hn Ho Hw. unfold Assistant.change_contact.
  rewrite (str_split_three _ _ _ Hn Ho Hw). unfold iobind, book_find.
  split; [|split; [|split]].
  - intros ->. reflexivity.
  - intros r Hf Hin Hd Hl. rewrite Hf, on_record_run.
    destruct (find_phone_in_Some _ _ Hin) as [p Hp].
    destruct (edit_phone_valid _ _ _ _ Hp Hd Hl) as [l [E1 E2]].
    rewrite E1. cbn. eexists. exists (set_phones r l).
    split; [reflexivity|]. cbn. split; [reflexivity|]. split; [|split].
    + unfold find. cbn. apply dict_get_setitem_same.
    + rewrite <- (remove_first_app_in _ _ _ Hin). exact E2.
    + intros other Hne. unfold find. cbn. now apply dict_get_setitem_other.
  - intros r Hf Hn'. rewrite Hf, on_record_run.
    rewrite (edit_phone_absent _ _ _ Hn'). cbn.
    now rewrite (store_same _ _ _ Hf).
  - intros r Hf Hin Hbad. rewrite Hf, on_record_run.
    rewrite (edit_phone_invalid_new _ _ _ Hin Hbad). cbn.
    now rewrite (store_same _ _ _ Hf).
Qed.

Lemma change_contact_spec_witness :
  Assistant.change_contact "Bob 1111111111 3333333333"
    (mkWorld (book_of [record_two_phones]) [] 0)
  = (Ok tt, mkWorld (book_of [record_two_phones])
                    [Displayed "Contact not found."] 0)
  /\ Assistant.change_contact "Ann 1111111111 12"
       (mkWorld (book_of [record_two_phones]) [] 0)
     = (Throw (Exn (ValueError msg_phone_digits)),
        mkWorld (book_of [record_two_phones]) [] 0).
Proof.
  pose proof (change_contact_spec
                (mkWorld (book_of [record_two_phones]) [] 0)
                "Bob" "1111111111" "3333333333") as H1.
  pose proof (change_contact_spec
                (mkWorld (book_of [record_two_phones]) [] 0)
                "Ann" "1111111111" "12") as H2.
  split.
  - destruct H1 as [H1 _]; [split; [discriminate|reflexivity]..|].
    exact (H1 eq_refl).
  - destruct H2 as [_ [_ [_ H2]]]; [split; [discriminate|reflexivity]..|].
    apply (H2 record_two_phones);
      [reflexivity|simpl; now left|right; discriminate].
Defined.

(** X19. The command [add-birthday name value]. For a name the book does not
    have the view shows "Contact not found.". For a known name and a value
    [Birthday] takes, the record gets that birthday, in place of the one it
    had, the other names are as before, and the view shows
    "Birthday added.". For a known name and any other value the command
    raises the ValueError of the date format and leaves the book and the
    view as they are. *)
Theorem add_birthday_command_spec (w : World) (name value : string) :
  is_word name -> is_word value ->
  (find name (book w) = None ->
   Assistant.add_birthday (name ++ " " ++ value) w
   = (Ok tt, mkWorld (book w) (trace w ++ [Displayed "Contact not found."])
                     (ticks w)))
  /\ (forall r,
         find name (book w) = Some r -> accepted_birthday value ->
         exists w',
           Assistant.add_birthday (name ++ " " ++ value) w = (Ok tt, w')
           /\ trace w' = (trace w ++ [Displayed "Birthday added."])%list
           /\ find name (book w')
              = Some (set_birthday r (Some (mkBirthday value)))
           /\ forall other, other <> name ->
                            find other (book w') = find other (book w))
  /\ (forall r,
         find name (book w) = Some r -> ~ accepted_birthday value ->
         Assistant.add_birthday (name ++ " " ++ value) w
         = (Throw (Exn (ValueError msg_date_format)), w)).
Proof.
  intros Hn Hv. unfold Assistant.add_birthday.
  rewrite (str_split_two _ _ Hn Hv). unfold iobind, book_find.
  split; [|split].
  - intros ->. reflexivity.
  - intros r Hf Ha. rewrite Hf, on_record_run.
    unfold add_birthday, bind, lift, get, put.
    rewrite (Birthday_init_accepted _ Ha). cbn.
    eexists. split; [reflexivity|]. cbn. split; [reflexivity|]. split.
    + unfold find. cbn. apply dict_get_setitem_same.
    + intros other Hne. unfold find. cbn. now apply dict_get_setitem_other.
  - intros r Hf Ha. rewrite Hf, on_record_run.
    unfold add_birthday, bind, lift, get, put.
    rewrite (Birthday_init_rejected _ Ha). cbn.
    now rewrite (store_same _ _ _ Hf).
Qed.

Lemma add_birthday_command_spec_witness :
  Assistant.add_birthday "Bob 1.1.2000"
    (mkWorld (book_of [record_two_phones]) [] 0)
  = (Ok tt, mkWorld (book_of [record_two_phones])
                    [Displayed "Contact not found."] 0)
  /\ Assistant.add_birthday "Ann 31.04.2020"
       (mkWorld (book_of [record_two_phones]) [] 0)
     = (Throw (Exn (ValueError msg_date_format)),
        mkWorld (book_of [record_two_phones]) [] 0).
Proof.
  pose proof (add_birthday_command_spec
                (mkWorld (book_of [record_two_phones]) [] 0)
                "Bob" "1.1.2000") as H1.
  pose proof (add_birthday_command_spec
                (mkWorld (book_of [record_two_phones]) [] 0)
                "Ann" "31.04.2020") as H2.
  split.
  - destruct H1 as [H1 _]; [split; [discriminate|reflexivity]..|].
    exact (H1 eq_refl).
  - destruct H2 as [_ [_ H2]]; [split; [discriminate|reflexivity]..|].
    apply (H2 record_two_phones); [reflexivity|].
    intros H. apply Birthday_init_accepted in H. discriminate H.
Defined.

(** X20. The commands [phone], [show-birthday], [all] and [birthdays] leave the
    book as it is, whether they return or raise, and [birthdays] reads the
    clock once. *)
Theorem read_only_commands (clock : nat -> datetime) (args : string) (w : World) :
  book (snd (Assistant.show_phone args w)) = book w
  /\ book (snd (Assistant.show_birthday args w)) = book w
  /\ book (snd (Assistant.list_all args w)) = book w
  /\ book (snd (Assistant.upcoming_birthdays clock args w)) = book w
  /\ ticks (snd (Assistant.upcoming_birthdays clock args w)) = S (ticks w).
Proof.
  unfold Assistant.show_phone, Assistant.show_birthday, Assistant.list_all,
    Assistant.upcoming_birthdays, Assistant.today, iobind, book_find.
  repeat split.
  - destruct (str_split args) as [|n l]; [reflexivity|].
    destruct (find n (book w)); reflexivity.
  - destruct (str_split args) as [|n l]; [reflexivity|].
    destruct (find n (book w)) as [r|]; [|reflexivity].
    destruct (birthday r); reflexivity.
  - cbn. destruct (get_upcoming_birthdays (clock (ticks w)) (book w))
      as [[|e l]|]; reflexivity.
  - cbn. destruct (get_upcoming_birthdays (clock (ticks w)) (book w))
      as [[|e l]|]; reflexivity.
Qed.

(* ------------------------------------------------------------------ *)
(** * The session *)

Lemma lstrip_all_space (s : string) :
  str_all char_isspace s = true -> lstrip s = "".
Proof.
  induction s as [|c s IH]; simpl; [reflexivity|].
  intros H. apply andb_true_iff in H. destruct H as [-> Hs]. now apply IH.
Qed.

(** X21. A line that is empty or all white space has no command: [parts[0]]
    raises IndexError, and the session ends there with the book as it is and
    nothing saved. *)
Theorem run_blank_line (clock : nat -> datetime) (line : string)
        (lines : list string) (w : World) :
  str_all char_isspace line = true ->
  Assistant.run_loop clock (line :: lines) w
  = (Throw (IndexError (Text "list index out of range")),
     mkWorld (book w) (trace w ++ [Prompted "Enter a command: "]) (ticks w)).
Proof.
  intros H. simpl. unfold str_split_maxsplit1.
  rewrite (lstrip_all_space _ H). reflexivity.
Qed.

Lemma run_blank_line_witness :
  Assistant.run_loop (fun _ => mkdatetime 2024 6 1 12 0 0 0)
                     ["   "; "exit"] (Assistant.init None)
  = (Throw (IndexError (Text "list index out of range")),
     mkWorld AddressBook_init [Prompted "Enter a command: "] 0).
Proof.
  exact (run_blank_line (fun _ => mkdatetime 2024 6 1 12 0 0 0)
                        "   " ["exit"] (Assistant.init None) eq_refl).
Defined.

(** *** One message for each command *)

Lemma add_contact_shows : shows_one_message Assistant.add_contact.
Proof.
  intros args w. unfold Assistant.add_contact.
  destruct (str_split args) as [|n [|p l]]; try reflexivity.
  unfold iobind, book_find.
  destruct (find n (book w)) as [r|]; cbn;
    destruct (negb (p =? "")%string); cbn; eauto;
    rewrite on_record_run;
    match goal with
    | |- context [add_phone p ?r] => destruct (add_phone p r) as [[[]|e] r']
    end; cbn; eauto.
Qed.

Lemma change_contact_shows : shows_one_message Assistant.change_contact.
Proof.
  intros args w. unfold Assistant.change_contact.
  destruct (str_split args) as [|n [|o [|p [|x l]]]]; try reflexivity.
  unfold iobind, book_find.
  destruct (find n (book w)) as [r|]; cbn; eauto.
  rewrite on_record_run.
  destruct (edit_phone o p r) as [[[]|e] r']; cbn; eauto.
Qed.

Lemma show_phone_shows : shows_one_message Assistant.show_phone.
Proof.
  intros args w. unfold Assistant.show_phone.
  destruct (str_split args) as [|n l]; try reflexivity.
  unfold iobind, book_find.
  destruct (find n (book w)) as [r|]; cbn; eauto.
Qed.

Lemma add_birthday_shows : shows_one_message Assistant.add_birthday.
Proof.
  intros args w. unfold Assistant.add_birthday.
  destruct (str_split args) as [|n [|v [|x l]]]; try reflexivity.
  unfold iobind, book_find.
  destruct (find n (book w)) as [r|]; cbn; eauto.
  rewrite on_record_run.
  destruct (add_birthday v r) as [[[]|e] r']; cbn; eauto.
Qed.

Lemma show_birthday_shows : shows_one_message Assistant.show_birthday.
Proof.
  intros args w. unfold Assistant.show_birthday.
  destruct (str_split args) as [|n l]; try reflexivity.
  unfold iobind, book_find.
  destruct (find n (book w)) as [r|]; cbn; eauto.
  destruct (birthday r); cbn; eauto.
Qed.

Lemma list_all_shows : shows_one_message Assistant.list_all.
Proof. intros args w. cbn. eauto. Qed.

Lemma upcoming_birthdays_shows (clock : nat -> datetime) :
  shows_one_message (Assistant.upcoming_birthdays clock).
Proof.
  intros args w. unfold Assistant.upcoming_birthdays, Assistant.today, iobind.
  cbn. destruct (get_upcoming_birthdays (clock (ticks w)) (book w))
    as [[|e l]|]; cbn; eauto.
Qed.

Lemma commands_cases (clock : nat -> datetime) (command : string)
      (handler : string -> IO unit) (P : (string -> IO unit) -> Prop) :
  P Assistant.add_contact -> P Assistant.change_contact ->
  P Assistant.show_phone -> P Assistant.add_birthday ->
  P Assistant.show_birthday -> P (Assistant.upcoming_birthdays clock) ->
  P Assistant.list_all ->
  dict_get command (Assistant.commands clock) = Some handler -> P handler.
Proof.
  intros H1 H2 H3 H4 H5 H6 H7. unfold Assistant.commands. cbn [dict_get].
  repeat match goal with
         | |- context [String.eqb ?a command] =>
             destruct (String.eqb a command); [intros [= <-]; assumption|]
         end.
  discriminate.
Qed.

(** X22. Every command of the table shows exactly one message when it returns,
    and none when it raises; it writes no file. *)
Theorem commands_show_one_message
        (clock : nat -> datetime) (command : string)
        (handler : string -> IO unit) :
  dict_get command (Assistant.commands clock) = Some handler ->
  shows_one_message handler.
Proof.
  apply commands_cases.
  - exact add_contact_shows.
  - exact change_contact_shows.
  - exact show_phone_shows.
  - exact add_birthday_shows.
  - exact show_birthday_shows.
  - exact (upcoming_birthdays_shows clock).
  - exact list_all_shows.
Qed.

Lemma commands_show_one_message_witness :
  shows_one_message Assistant.change_contact.
Proof.
  exact (commands_show_one_message (fun _ => mkdatetime 2024 6 1 12 0 0 0)
                                   "change" Assistant.change_contact eq_refl).
Defined.

(** *** What a session saves *)

Lemma dumps_app (a b : list event) : dumps (a ++ b) = (dumps a ++ dumps b)%list.
Proof.
  induction a as [|e a IH]; simpl; [reflexivity|].
  destruct e; simpl; now rewrite IH.
Qed.

Lemma run_loop_nil (clock : nat -> datetime) (w : World) :
  Assistant.run_loop clock [] w
  = (Throw (EOFError (Text "EOF when reading a line")),
     mkWorld (book w) (trace w ++ [Prompted "Enter a command: "]) (ticks w)).
Proof. reflexivity. Qed.

Lemma run_loop_cons (clock : nat -> datetime) (line : string)
      (lines : list string) (w : World) :
  Assistant.run_loop clock (line :: lines) w
  = let w1 := mkWorld (book w) (trace w ++ [Prompted "Enter a command: "])
                      (ticks w) in
    match str_split_maxsplit1 line with
    | [] => (Throw (IndexError (Text "list index out of range")), w1)
    | command :: parts' =>
        if existsb (String.eqb command) ["close"; "exit"]
        then (Ok tt,
              mkWorld (book w)
                      (trace w1 ++ [Dumped "addressbook.pkl" (book w);
                                    Displayed "Good bye!"])
                      (ticks w))
        else
          match dispatch clock command
                         (match parts' with a :: _ => a | [] => "" end) w1 with
          | (Ok _, w2) => Assistant.run_loop clock lines w2
          | (Throw e, w2) => (Throw e, w2)
          end
    end.
Proof.
  cbn [Assistant.run_loop]. cbv zeta.
  destruct (str_split_maxsplit1 line) as [|command parts']; [reflexivity|].
  destruct (existsb (String.eqb command) ["close"; "exit"]).
  - unfold iobind, Assistant.save_data, Assistant.display. cbn.
    now rewrite <- app_assoc.
  - unfold iobind, dispatch.
    destruct (dict_get command (Assistant.commands clock)); reflexivity.
Qed.

Lemma dispatch_shows (clock : nat -> datetime) (command : string) :
  shows_one_message (dispatch clock command).
Proof.
  unfold dispatch.
  destruct (dict_get command (Assistant.commands clock)) as [h|] eqn:E.
  - apply (commands_cases clock command h shows_one_message);
      [exact add_contact_shows|exact change_contact_shows
      |exact show_phone_shows|exact add_birthday_shows
      |exact show_birthday_shows|exact (upcoming_birthdays_shows clock)
      |exact list_all_shows|exact E].
  - intros args w. cbn. eauto.
Qed.

Lemma dispatch_dumps (clock : nat -> datetime) (command args : string)
      (w : World) :
  dumps (trace (snd (dispatch clock command args w))) = dumps (trace w).
Proof.
  pose proof (dispatch_shows clock command args w) as H.
  destruct (fst (dispatch clock command args w)).
  - destruct H as [msg ->]. rewrite dumps_app. simpl. apply app_nil_r.
  - now rewrite H.
Qed.

Lemma run_loop_dumps (clock : nat -> datetime) (lines : list string) :
  forall w,
    dumps (trace (snd (Assistant.run_loop clock lines w)))
    = (dumps (trace w)
       ++ match fst (Assistant.run_loop clock lines w) with
          | Ok _ => [book (snd (Assistant.run_loop clock lines w))]
          | Throw _ => []
          end)%list.
Proof.
  induction lines as [|line lines IH]; intros w.
  - rewrite run_loop_nil. cbn. rewrite dumps_app. reflexivity.
  - rewrite run_loop_cons. cbv zeta.
    destruct (str_split_maxsplit1 line) as [|command parts'].
    + cbn. rewrite dumps_app. reflexivity.
    + destruct (existsb (String.eqb command) ["close"; "exit"]).
      * cbn. rewrite !dumps_app. cbn. now rewrite app_nil_r.
      * pose proof (dispatch_dumps clock command
                      (match parts' with a :: _ => a | [] => "" end)
                      (mkWorld (book w)
                               (trace w ++ [Prompted "Enter a command: "])
                               (ticks w))) as Hd.
        destruct (dispatch clock command _ _) as [[[]|e] w2]; cbn in Hd.
        -- rewrite IH, Hd, dumps_app. cbn. now rewrite app_nil_r.
        -- cbn. rewrite Hd, dumps_app. cbn. reflexivity.
Qed.

(** X23. A session hands the book to [pickle.dump] once, as it is at the end,
    when [run] returns, and never when [run] raises: what was done since the
    start is lost with the exception. *)
Theorem run_dumps (clock : nat -> datetime) (lines : list string) (w : World) :
  dumps (trace (snd (Assistant.run clock lines w)))
  = (dumps (trace w)
     ++ match fst (Assistant.run clock lines w) with
        | Ok _ => [book (snd (Assistant.run clock lines w))]
        | Throw _ => []
        end)%list.
Proof.
  unfold Assistant.run, iobind, Assistant.display. cbn.
  rewrite run_loop_dumps. cbn. rewrite dumps_app. cbn.
  now rewrite app_nil_r.
Qed.

(** *** The book stays valid through a session *)

Lemma add_phone_name (phone : string) (self : Record_) :
  record_key (snd (add_phone phone self)) = record_key self.
Proof.
  destruct (add_phone_cases phone self) as [[_ ->]| ->]; reflexivity.
Qed.

Lemma remove_phone_name (phone : string) (self : Record_) :
  record_key (snd (remove_phone phone self)) = record_key self.
Proof.
  unfold remove_phone, bind, get, lift, put, find_phone.
  destruct (find_phone_in phone (phones self)) as [p|]; [|reflexivity].
  destruct (list_remove Phone_eqb p (phones self)); reflexivity.
Qed.

Lemma edit_phone_name (old_phone new_phone : string) (self : Record_) :
  record_key (snd (edit_phone old_phone new_phone self)) = record_key self.
Proof.
  unfold edit_phone, bind at 1, get, find_phone.
  destruct (find_phone_in old_phone (phones self)) as [p|]; [|reflexivity].
  unfold bind. pose proof (add_phone_name new_phone self) as H.
  destruct (add_phone new_phone self) as [[[]|e] self1]; cbn [snd] in *;
    [|exact H].
  rewrite remove_phone_name. exact H.
Qed.

Lemma add_birthday_name (value : string) (self : Record_) :
  record_key (snd (add_birthday value self)) = record_key self.
Proof.
  unfold add_birthday, bind, lift, get, put.
  destruct (Birthday_init value); reflexivity.
Qed.

Lemma book_ok_find (b : AddressBook) (key : string) (r : Record_) :
  book_ok b -> find key b = Some r -> record_key r = key /\ record_ok r.
Proof. intros [_ H] Hf. apply H. now apply dict_get_In. Qed.

Lemma on_record_keeps_ok {A : Type} (key : string) (r : Record_)
      (m : M Record_ A) (w : World) :
  book_ok (book w) -> record_key r = key -> record_ok r ->
  record_key (snd (m r)) = record_key r ->
  (record_ok r -> record_ok (snd (m r))) ->
  book_ok (book (snd (on_record key r m w))).
Proof.
  intros Hb Hk Hr Hname Hok. rewrite on_record_run. cbn.
  apply book_ok_setitem; [exact Hb|congruence|auto].
Qed.

Lemma book_after_display {A : Type} (m : IO A) (msg : string) (w : World) :
  book (snd ((m >> Assistant.display msg) w)) = book (snd (m w)).
Proof. unfold iobind. destruct (m w) as [[a|e] w']; reflexivity. Qed.

Lemma add_contact_keeps_ok : keeps_book_ok Assistant.add_contact.
Proof.
  intros args w Hb. unfold Assistant.add_contact.
  destruct (str_split args) as [|n [|p l]]; try exact Hb.
  unfold iobind at 1 2, book_find.
  destruct (find n (book w)) as [r|] eqn:Hf; cbn [ioret].
  - rewrite book_after_display.
    destruct (negb (p =? "")%string); [|exact Hb].
    destruct (book_ok_find _ _ _ Hb Hf) as [Hk Hr].
    apply on_record_keeps_ok; auto using add_phone_name, add_phone_keeps_ok.
  - cbn. rewrite book_after_display.
    assert (Hb1 : book_ok (mkAddressBook
                             (dict_setitem n (mkRecord (mkName n) [] None)
                                           (data (book w))))).
    { apply book_ok_setitem; [exact Hb|reflexivity|].
      split; [constructor|discriminate]. }
    destruct (negb (p =? "")%string); [|exact Hb1].
    apply (on_record_keeps_ok n (mkRecord (mkName n) [] None) (add_phone p)
             (set_book w (mkAddressBook
                            (dict_setitem n (mkRecord (mkName n) [] None)
                                          (data (book w)))))).
    + exact Hb1.
    + reflexivity.
    + split; [constructor|discriminate].
    + apply add_phone_name.
    + apply add_phone_keeps_ok.
Qed.

Lemma change_contact_keeps_ok : keeps_book_ok Assistant.change_contact.
Proof.
  intros args w Hb. unfold Assistant.change_contact.
  destruct (str_split args) as [|n [|o [|p [|x l]]]]; try exact Hb.
  unfold iobind at 1, book_find.
  destruct (find n (book w)) as [r|] eqn:Hf; [|exact Hb].
  rewrite book_after_display.
  destruct (book_ok_find _ _ _ Hb Hf) as [Hk Hr].
  apply on_record_keeps_ok; auto using edit_phone_name, edit_phone_keeps_ok.
Qed.

Lemma add_birthday_keeps_book_ok : keeps_book_ok Assistant.add_birthday.
Proof.
  intros args w Hb. unfold Assistant.add_birthday.
  destruct (str_split args) as [|n [|v [|x l]]]; try exact Hb.
  unfold iobind at 1, book_find.
  destruct (find n (book w)) as [r|] eqn:Hf; [|exact Hb].
  rewrite book_after_display.
  destruct (book_ok_find _ _ _ Hb Hf) as [Hk Hr].
  apply on_record_keeps_ok; auto using add_birthday_name, add_birthday_keeps_ok.
Qed.

Lemma read_only_keeps_ok (handler : string -> IO unit) :
  (forall args w, book (snd (handler args w)) = book w) ->
  keeps_book_ok handler.
Proof. intros H args w Hb. now rewrite H. Qed.

Lemma show_phone_book (args : string) (w : World) :
  book (snd (Assistant.show_phone args w)) = book w.
Proof.
  unfold Assistant.show_phone, iobind, book_find.
  destruct (str_split args) as [|n l]; [reflexivity|].
  destruct (find n (book w)); reflexivity.
Qed.

Lemma show_birthday_book (args : string) (w : World) :
  book (snd (Assistant.show_birthday args w)) = book w.
Proof.
  unfold Assistant.show_birthday, iobind, book_find.
  destruct (str_split args) as [|n l]; [reflexivity|].
  destruct (find n (book w)) as [r|]; [|reflexivity].
  destruct (birthday r); reflexivity.
Qed.

Lemma list_all_book (args : string) (w : World) :
  book (snd (Assistant.list_all args w)) = book w.
Proof. reflexivity. Qed.

Lemma upcoming_birthdays_book (clock : nat -> datetime) (args : string)
      (w : World) :
  book (snd (Assistant.upcoming_birthdays clock args w)) = book w.
Proof.
  unfold Assistant.upcoming_birthdays, Assistant.today, iobind. cbn.
  destruct (get_upcoming_birthdays (clock (ticks w)) (book w))
    as [[|e l]|]; reflexivity.
Qed.

Lemma dispatch_keeps_ok (clock : nat -> datetime) (command : string) :
  keeps_book_ok (dispatch clock command).
Proof.
  unfold dispatch.
  destruct (dict_get command (Assistant.commands clock)) as [h|] eqn:E.
  - apply (commands_cases clock command h keeps_book_ok);
      [exact add_contact_keeps_ok|exact change_contact_keeps_ok
      |exact (read_only_keeps_ok _ show_phone_book)
      |exact add_birthday_keeps_book_ok
      |exact (read_only_keeps_ok _ show_birthday_book)
      |exact (read_only_keeps_ok _ (upcoming_birthdays_book clock))
      |exact (read_only_keeps_ok _ list_all_book)|exact E].
  - intros args w Hb. exact Hb.
Qed.

Lemma run_loop_keeps_ok (clock : nat -> datetime) (lines : list string) :
  forall w, book_ok (book w) ->
            book_ok (book (snd (Assistant.run_loop clock lines w))).
Proof.
  induction lines as [|line lines IH]; intros w Hb.
  - exact Hb.
  - rewrite run_loop_cons. cbv zeta.
    destruct (str_split_maxsplit1 line) as [|command parts']; [exact Hb|].
    destruct (existsb (String.eqb command) ["close"; "exit"]); [exact Hb|].
    pose proof (dispatch_keeps_ok clock command
                  (match parts' with a :: _ => a | [] => "" end)
                  (mkWorld (book w)
                           (trace w ++ [Prompted "Enter a command: "])
                           (ticks w)) Hb) as H2.
    destruct (dispatch clock command _ _) as [[[]|e] w2]; cbn [snd] in *.
    + now apply IH.
    + exact H2.
Qed.

(** X24. A session that starts with a valid book ends with a valid book, however
    it ends: no name twice, every record under its own name, every phone ten
    digits, every birthday a value [Birthday] takes. So [strptime] never
    fails in [get_upcoming_birthdays] on a book a session has made. *)
Theorem run_keeps_book_valid
        (clock : nat -> datetime) (lines : list string) (w : World) :
  book_ok (book w) -> book_ok (book (snd (Assistant.run clock lines w))).
Proof.
  intros Hb. unfold Assistant.run, iobind, Assistant.display.
  now apply run_loop_keeps_ok.
Qed.

Lemma run_keeps_book_valid_witness :
  book_ok (book (snd (Assistant.run (fun _ => mkdatetime 2024 6 1 12 0 0 0)
                                    ["add Ann 1111111111"; "add Bob 12"]
                                    (Assistant.init None)))).
Proof.
  apply run_keeps_book_valid.
  split; simpl; [constructor|intros k r []].
Defined.

(** *** Sessions without some commands *)

Lemma dispatch_read_only (clock : nat -> datetime) (command args : string)
      (w : World) :
  ~ In command ["add"; "change"; "add-birthday"] ->
  book (snd (dispatch clock command args w)) = book w.
Proof.
  intros Hn. unfold dispatch, Assistant.commands. cbn [dict_get].
  destruct (String.eqb_spec "add" command) as [<-|_];
    [exfalso; apply Hn; simpl; auto|].
  destruct (String.eqb_spec "change" command) as [<-|_];
    [exfalso; apply Hn; simpl; auto|].
  destruct (String.eqb "phone" command); [apply show_phone_book|].
  destruct (String.eqb_spec "add-birthday" command) as [<-|_];
    [exfalso; apply Hn; simpl; auto|].
  destruct (String.eqb "show-birthday" command); [apply show_birthday_book|].
  destruct (String.eqb "birthdays" command);
    [apply upcoming_birthdays_book|].
  destruct (String.eqb "all" command); [apply list_all_book|].
  reflexivity.
Qed.

Lemma no_command_tail (commands : list string) (line : string)
      (lines : list string) :
  no_command commands (line :: lines) -> no_command commands lines.
Proof. intros H l c Hl. apply H. now right. Qed.

Lemma run_loop_read_only (clock : nat -> datetime) (lines : list string) :
  no_command ["add"; "change"; "add-birthday"] lines ->
  forall w, book (snd (Assistant.run_loop clock lines w)) = book w.
Proof.
  induction lines as [|line lines IH]; intros Hno w.
  - reflexivity.
  - rewrite run_loop_cons. cbv zeta.
    destruct (str_split_maxsplit1 line) as [|command parts'] eqn:E;
      [reflexivity|].
    destruct (existsb (String.eqb command) ["close"; "exit"]); [reflexivity|].
    assert (Hc : ~ In command ["add"; "change"; "add-birthday"]).
    { apply (Hno line command); [now left|]. unfold command_of.
      now rewrite E. }
    pose proof (dispatch_read_only clock command
                  (match parts' with a :: _ => a | [] => "" end)
                  (mkWorld (book w)
                           (trace w ++ [Prompted "Enter a command: "])
                           (ticks w)) Hc) as H2.
    destruct (dispatch clock command _ _) as [[[]|e] w2]; cbn [snd] in *.
    + rewrite (IH (no_command_tail _ _ _ Hno) w2). exact H2.
    + exact H2.
Qed.

(** X25. Only [add], [change] and [add-birthday] change the book: a session in
    which no line has one of them as its command ends, however it ends,
    with the book it started with. *)
Theorem run_without_changes
        (clock : nat -> datetime) (lines : list string) (w : World) :
  no_command ["add"; "change"; "add-birthday"] lines ->
  book (snd (Assistant.run clock lines w)) = book w.
Proof.
  intros Hno. unfold Assistant.run, iobind, Assistant.display.
  now rewrite (run_loop_read_only clock lines Hno).
Qed.

Lemma command_of_cases (line : string) :
  line = "phone Ann" \/ line = "delete Ann" \/ line = "all" \/ line = "exit" ->
  forall command, command_of line = Some command ->
                  ~ In command ["add"; "change"; "add-birthday"].
Proof.
  intros [->|[->|[->| ->]]] command [= <-] [H|[H|[H|[]]]]; discriminate H.
Qed.

Lemma run_without_changes_witness :
  book (snd (Assistant.run (fun _ => mkdatetime 2024 6 1 12 0 0 0)
                           ["phone Ann"; "delete Ann"; "all"; "exit"]
                           (mkWorld (book_of [record_two_phones]) [] 0)))
  = book_of [record_two_phones].
Proof.
  apply (run_without_changes (fun _ => mkdatetime 2024 6 1 12 0 0 0)
           ["phone Ann"; "delete Ann"; "all"; "exit"]
           (mkWorld (book_of [record_two_phones]) [] 0)).
  intros line command Hl. apply command_of_cases.
  simpl in Hl. destruct Hl as [<-|[<-|[<-|[<-|[]]]]]; auto.
Defined.

Lemma existsb_eqb_false (command : string) (l : list string) :
  ~ In command l -> existsb (String.eqb command) l = false.
Proof.
  intros H. destruct (existsb (String.eqb command) l) eqn:E; [|reflexivity].
  apply existsb_exists in E. destruct E as [x [Hx Hc]].
  apply String.eqb_eq in Hc. subst x. contradiction.
Qed.

Lemma run_loop_without_exit (clock : nat -> datetime) (lines : list string) :
  no_command ["close"; "exit"] lines ->
  forall w, exists e, fst (Assistant.run_loop clock lines w) = Throw e.
Proof.
  induction lines as [|line lines IH]; intros Hno w.
  - eexists. reflexivity.
  - rewrite run_loop_cons. cbv zeta.
    destruct (str_split_maxsplit1 line) as [|command parts'] eqn:E;
      [eexists; reflexivity|].
    rewrite existsb_eqb_false.
    + destruct (dispatch clock command _ _) as [[[]|e] w2]; cbn [fst].
      * apply IH. eapply no_command_tail. exact Hno.
      * now exists e.
    + apply (Hno line command); [now left|]. unfold command_of. now rewrite E.
Qed.

(** X26. A session in which no line has [close] or [exit] as its command does
    not return: it ends in an exception, that of a command, of a line
    without a command, or of the input at its end. *)
Theorem run_without_exit
        (clock : nat -> datetime) (lines : list string) (w : World) :
  no_command ["close"; "exit"] lines ->
  exists e, fst (Assistant.run clock lines w) = Throw e.
Proof.
  intros Hno. unfold Assistant.run, iobind, Assistant.display.
  destruct (run_loop_without_exit clock lines Hno
              (mkWorld (book w)
                       (trace w ++ [Displayed "Welcome to the assistant bot!"])
                       (ticks w))) as [e He].
  exists e. cbn.
  destruct (Assistant.run_loop clock lines _) as [[a|e'] w']; cbn in *;
    [discriminate He|exact He].
Qed.

Lemma run_without_exit_witness :
  exists e,
    fst (Assistant.run (fun _ => mkdatetime 2024 6 1 12 0 0 0)
                       ["add Ann 1111111111"; "all"] (Assistant.init None))
    = Throw e.
Proof.
  apply run_without_exit.
  intros line command [<-|[<-|[]]] [= <-] [H|[H|[]]]; discriminate H.
Defined.
